(** * AI Code Architect: corpus assembly, generation workflow and chat transcript

    A shallow embedding of the logic of [src/App.tsx] (with its second
    revision [src/unnamed/part_000]), [src/services/geminiService.ts] and
    the [ChatInterface] component of [src/unnamed/part_001].

    Conventions of the embedding.
    - A JavaScript string is a [string] holding its UTF-8 encoding.  [trim]
      strips every white-space character and line terminator of ECMAScript;
      [toLowerCase] folds [A-Z] only, which is exact on ASCII text.
    - React state and refs are fields of a record; a handler is a value of a
      small free monad [Task] whose nodes are state writes, external calls
      and exceptions. *)

From Stdlib Require Import String Ascii List Bool Arith ZArith NArith Lia.
From Stdlib Require Import DecimalString DecimalZ DecimalPos.
From ExtLib Require Import Structures.Monad Structures.MonadExc.
Import ListNotations.
Import MonadNotation.

Local Open Scope monad_scope.
Local Open Scope list_scope.
Local Open Scope bool_scope.
Local Open Scope string_scope.

(* ===================================================================== *)
(** ** JavaScript string primitives                                       *)
(* ===================================================================== *)

Module JS.

(** The line feed written [\n] in the template literals of the source. *)
Definition LF : string := String "010"%char EmptyString.

(** [!s] for a string [s]: only the empty string is falsy. *)
Definition falsy (s : string) : bool :=
  match s with
  | EmptyString => true
  | String _ _ => false
  end.

(** [a || b] on strings. *)
Definition orElse (a b : string) : string :=
  if falsy a then b else a.

(** [s.startsWith(p)]. *)
Definition startsWith (s p : string) : bool := String.prefix p s.

(** [s.includes(p)]: [p] starts at some position of [s]. *)
Fixpoint includes (s p : string) : bool :=
  String.prefix p s ||
  match s with
  | EmptyString => false
  | String _ s' => includes s' p
  end.

(** [s.endsWith(e)]: some tail of [s] is [e]. *)
Fixpoint endsWith (s e : string) : bool :=
  String.eqb s e ||
  match s with
  | EmptyString => false
  | String _ s' => endsWith s' e
  end.

Definition lower_ascii (c : ascii) : ascii :=
  let n := nat_of_ascii c in
  if ((65 <=? n) && (n <=? 90))%nat then ascii_of_nat (n + 32) else c.

(** [s.toLowerCase()]. *)
Fixpoint toLowerCase (s : string) : string :=
  match s with
  | EmptyString => EmptyString
  | String c s' => String (lower_ascii c) (toLowerCase s')
  end.

(** A character given by the bytes of its UTF-8 encoding. *)
Definition utf8 (bytes : list nat) : string :=
  string_of_list_ascii (map ascii_of_nat bytes).

(** The white space and the line terminators of ECMAScript, encoded: TAB,
    LF, VT, FF, CR, SP, U+00A0, U+1680, U+2000 to U+200A, U+2028, U+2029,
    U+202F, U+205F, U+3000 and U+FEFF. *)
Definition whiteSpace : list string :=
  map utf8
      [ [9]; [10]; [11]; [12]; [13]; [32];
        [194; 160];
        [225; 154; 128];
        [226; 128; 128]; [226; 128; 129]; [226; 128; 130]; [226; 128; 131];
        [226; 128; 132]; [226; 128; 133]; [226; 128; 134]; [226; 128; 135];
        [226; 128; 136]; [226; 128; 137]; [226; 128; 138];
        [226; 128; 168]; [226; 128; 169];
        [226; 128; 175];
        [226; 129; 159];
        [227; 128; 128];
        [239; 187; 191] ].

(** [s.slice(n)], counted in bytes. *)
Fixpoint slice (n : nat) (s : string) : string :=
  match n, s with
  | O, _ => s
  | S _, EmptyString => EmptyString
  | S n', String _ s' => slice n' s'
  end.

(** What follows the white-space character at the head of [s], when [s]
    begins with one. *)
Definition afterWhiteSpace (s : string) : option string :=
  match find (fun w => String.prefix w s) whiteSpace with
  | Some w => Some (slice (String.length w) s)
  | None => None
  end.

(** Leading white space removed, at most [fuel] characters of it. *)
Fixpoint trimStartWithin (fuel : nat) (s : string) : string :=
  match fuel with
  | O => s
  | S fuel' =>
      match afterWhiteSpace s with
      | Some rest => trimStartWithin fuel' rest
      | None => s
      end
  end.

(** [s.trimStart()]: a string has no more characters than bytes. *)
Definition trimStart (s : string) : string :=
  trimStartWithin (String.length s) s.

(** [s.trimEnd()]: the text is cut where what remains is white space
    only. *)
Fixpoint trimEnd (s : string) : string :=
  match s with
  | EmptyString => EmptyString
  | String c s' =>
      if falsy (trimStart s) then EmptyString else String c (trimEnd s')
  end.

(** [s.trim()]. *)
Definition trim (s : string) : string := trimEnd (trimStart s).

(** [n.toString()] for an integral number. *)
Definition toString (n : Z) : string := NilZero.string_of_int (Z.to_int n).

(** The outcome of awaiting a promise. *)
Inductive Thrown : Type :=
| ErrorObject (message : string)   (* [instanceof Error] *)
| OtherValue.                      (* anything else that was thrown *)

Inductive Settled (A : Type) : Type :=
| Fulfilled (value : A)
| Rejected (reason : Thrown).
Arguments Fulfilled {A} value.
Arguments Rejected {A} reason.

End JS.
Import JS.

(* ===================================================================== *)
(** ** The Corpus Assembler: the loop of [processFiles]                   *)
(* ===================================================================== *)

(** A browser [File]: its names, its byte size and what reading it as text
    settles to ([readFileContent]). *)
Record File : Type := mkFile {
  name : string;
  webkitRelativePath : string;
  fsize : N;
  readAsText : Settled string
}.

(** [interface FileItem { path: string; size: number }] *)
Record FileItem : Type := mkFileItem {
  path : string;
  size : N
}.

Module Assembler.
Section Config.

(** The two module constants of the source, kept abstract here so that
    both revisions of the component (and the lists of the scenarios) are
    instances. *)
Variables IGNORED_DIRS ALLOWED_EXTENSIONS : list string.

(** [file.webkitRelativePath || file.name] *)
Definition pathOf (file : File) : string :=
  orElse (webkitRelativePath file) (name file).

(** [IGNORED_DIRS.some(dir => path.includes(`/${dir}/`) ||
     path.startsWith(`${dir}/`))] *)
Definition inIgnoredDir (p : string) : bool :=
  existsb (fun dir => includes p ("/" ++ dir ++ "/") || startsWith p (dir ++ "/"))
          IGNORED_DIRS.

(** [ALLOWED_EXTENSIONS.some(ext => path.toLowerCase().endsWith(ext))] *)
Definition isAllowed (p : string) : bool :=
  existsb (fun ext => endsWith (toLowerCase p) ext) ALLOWED_EXTENSIONS.

(** [`--- START OF FILE ${path} ---\n${content}\n\n`] *)
Definition fileBlock (p content : string) : string :=
  "--- START OF FILE " ++ p ++ " ---" ++ LF ++ content ++ LF ++ LF.

(** One iteration of the [for] loop over the accumulators
    [(validFiles, concatenatedCode)]. *)
Definition loopBody (acc : list FileItem * string) (file : File)
  : list FileItem * string :=
  let '(validFiles, concatenatedCode) := acc in
  let p := pathOf file in
  if inIgnoredDir p then acc                       (* continue *)
  else if negb (isAllowed p) then acc              (* continue *)
  else match readAsText file with
       | Fulfilled content =>
           ((validFiles ++ [mkFileItem p (fsize file)])%list,
            concatenatedCode ++ fileBlock p content)
       | Rejected _ => acc                         (* caught, console.warn *)
       end.

(** The whole loop, from [validFiles = []] and [concatenatedCode = ""]. *)
Definition assemble (files : list File) : list FileItem * string :=
  fold_left loopBody files ([], "").

End Config.
End Assembler.

(* ===================================================================== *)
(** ** Handlers as tasks                                                  *)
(* ===================================================================== *)

(** The remote objects of [@google/genai] are opaque: a response exposes
    its [text] (possibly [undefined]) and a chat is a handle. *)
Record GenerateContentResponse : Type := mkResponse {
  response_text : option string
}.

Record Chat : Type := mkChat {
  chat_handle : nat
}.

Inductive Role : Type := user | model.

(** One entry of the [history] given to [ai.chats.create]. *)
Record Content : Type := mkContent {
  content_role : Role;
  content_parts : list string
}.

(** What a handler asks of its environment.  The index is the type of the
    answer; an answer that can be a rejected promise or a thrown exception
    is a [Settled]. *)
Inductive Effect : Type -> Type :=
| GenerateContent (apiKey : string) (parts : list string)
    : Effect (Settled GenerateContentResponse)    (* ai.models.generateContent *)
| ChatsCreate (apiKey : string) (history : list Content)
    : Effect (Settled Chat)                       (* ai.chats.create *)
| SendMessage (session : Chat) (message : string)
    : Effect (Settled GenerateContentResponse)    (* chatSession.sendMessage *)
| DateNow : Effect Z.                             (* Date.now() *)

Definition Call : Type := { R : Type & Effect R }.
Definition call {R} (e : Effect R) : Call := existT _ R e.

Module Task.

(** A handler over component state [S] returning an [A]. *)
Inductive Task (S A : Type) : Type :=
| Ret (a : A)
| Throw (e : Thrown)
| Update (f : S -> S) (k : Task S A)                (* setX(...), ref.current = ... *)
| Perform {R : Type} (e : Effect R) (k : R -> Task S A).
Arguments Ret {S A} a.
Arguments Throw {S A} e.
Arguments Update {S A} f k.
Arguments Perform {S A R} e k.

Fixpoint bind {S A B} (t : Task S A) (f : A -> Task S B) : Task S B :=
  match t with
  | Ret a => f a
  | Throw e => Throw e
  | Update g k => Update g (bind k f)
  | Perform e k => Perform e (fun r => bind (k r) f)
  end.

(** [try { t } catch (e) { h e }] *)
Fixpoint tryCatch {S A} (t : Task S A) (h : Thrown -> Task S A) : Task S A :=
  match t with
  | Ret a => Ret a
  | Throw e => h e
  | Update g k => Update g (tryCatch k h)
  | Perform e k => Perform e (fun r => tryCatch (k r) h)
  end.

(** [try { t } finally { fin }] *)
Fixpoint tryFinally {S A} (t : Task S A) (fin : Task S unit) : Task S A :=
  match t with
  | Ret a => bind fin (fun _ => Ret a)
  | Throw e => bind fin (fun _ => Throw e)
  | Update g k => Update g (tryFinally k fin)
  | Perform e k => Perform e (fun r => tryFinally (k r) fin)
  end.

#[export] Instance Monad_Task {S} : Monad (Task S) :=
  {| ret := fun _ a => Ret a; Monad.bind := fun _ _ t f => bind t f |}.

#[export] Instance Exc_Task {S} : MonadExc Thrown (Task S) :=
  {| raise := fun _ e => Throw e; catch := fun _ t h => tryCatch t h |}.

(** A state write. *)
Definition set {S} (f : S -> S) : Task S unit := Update f (Ret tt).

(** A call that cannot fail. *)
Definition perform {S R} (e : Effect R) : Task S R := Perform e (fun r => Ret r).

(** [await e]: a rejection is rethrown at the [await]. *)
Definition await {S A} (e : Effect (Settled A)) : Task S A :=
  Perform e (fun r => match r with
                      | Fulfilled v => Ret v
                      | Rejected err => Throw err
                      end).

Inductive Completion (A : Type) : Type :=
| Returned (a : A)
| Uncaught (e : Thrown).
Arguments Returned {A} a.
Arguments Uncaught {A} e.

Record Run (S W A : Type) : Type := mkRun {
  final : S;                 (* component state when the handler is done *)
  world : W;                 (* the environment afterwards *)
  completion : Completion A;
  issued : list Call         (* external calls, in the order issued *)
}.
Arguments mkRun {S W A}.
Arguments final {S W A}.
Arguments world {S W A}.
Arguments completion {S W A}.
Arguments issued {S W A}.

Section Run.
Context {W : Type}.
(** The environment answers each call and moves on. *)
Variable answer : forall R, Effect R -> W -> R * W.

(** Run a handler to completion. *)
Fixpoint runFrom {S A} (t : Task S A) (w : W) (st : S) (log : list Call)
  : Run S W A :=
  match t with
  | Ret a => mkRun st w (Returned a) log
  | Throw e => mkRun st w (Uncaught e) log
  | Update f k => runFrom k w (f st) log
  | Perform e k =>
      let '(r, w') := answer _ e w in
      runFrom (k r) w' st (log ++ [call e])%list
  end.

Definition run {S A} (t : Task S A) (w : W) (st : S) : Run S W A :=
  runFrom t w st [].
End Run.

(** A handler up to its first external call: where an [async] function
    hands control back to the event loop. *)
Inductive Suspended (S A : Type) : Type :=
| Finished (c : Completion A)
| Awaiting {R : Type} (e : Effect R) (k : R -> Task S A).
Arguments Finished {S A} c.
Arguments Awaiting {S A R} e k.

Fixpoint start {S A} (t : Task S A) (st : S) : S * Suspended S A :=
  match t with
  | Ret a => (st, Finished (Returned a))
  | Throw e => (st, Finished (Uncaught e))
  | Update f k => start k (f st)
  | Perform e k => (st, Awaiting e k)
  end.

(** The call a suspended handler is waiting for, if any. *)
Definition inFlight {S A} (s : Suspended S A) : option Call :=
  match s with
  | Finished _ => None
  | Awaiting e _ => Some (call e)
  end.

End Task.
Import Task.

(* ===================================================================== *)
(** ** [services/geminiService.ts]                                        *)
(* ===================================================================== *)

Module GeminiService.

(** [response.text || fallback] where [text] may be [undefined]. *)
Definition textOr (t : option string) (fallback : string) : string :=
  match t with
  | Some s => orElse s fallback
  | None => fallback
  end.

(** The system prompt, the model name and the sampling configuration are
    constants of every request; only the key and the content parts vary
    and are carried by the call. *)
Definition docRequest (apiKey code : string)
  : Effect (Settled GenerateContentResponse) :=
  GenerateContent apiKey ["请根据以下项目代码文件生成技术文档："; code].

Definition generateDocFromCode {S} (apiKey code : string) : Task S string :=
  if falsy apiKey
  then Throw (ErrorObject "API Key is required to generate documentation.")
  else
    response <- await (docRequest apiKey code) ;;
    ret (textOr (response_text response) "No response generated.").

(** The two seed turns of a chat session. *)
Definition seedHistory (fileContext generatedDoc : string) : list Content :=
  [ mkContent user
      [ "这是项目的源代码：";
        fileContext;
        LF ++ LF ++ "这是刚刚生成的项目技术文档：";
        generatedDoc;
        LF ++ LF ++ "请准备好回答我关于这个项目的问题。" ];
    mkContent model
      [ "明白。我已经阅读了源代码和技术文档。请问您有什么关于项目架构、逻辑或代码细节的问题？" ] ].

Definition createChatSession {S} (apiKey fileContext generatedDoc : string)
  : Task S Chat :=
  if falsy apiKey
  then Throw (ErrorObject "API Key is required to create chat session.")
  else
    session <- await (ChatsCreate apiKey (seedHistory fileContext generatedDoc)) ;;
    ret session.

End GeminiService.

(* ===================================================================== *)
(** ** [App.tsx]                                                          *)
(* ===================================================================== *)

(** [enum AppState] of [types.ts]. *)
Inductive AppState : Type := IDLE | GENERATING | SUCCESS | ERROR.

Definition AppState_eqb (a b : AppState) : bool :=
  match a, b with
  | IDLE, IDLE | GENERATING, GENERATING | SUCCESS, SUCCESS | ERROR, ERROR => true
  | _, _ => false
  end.

Inductive Tab : Type := doc | chat.

Module App.

Definition IGNORED_DIRS : list string :=
  ["node_modules"; ".git"; "dist"; "build"; ".next"; "coverage"].

Definition ALLOWED_EXTENSIONS : list string :=
  [".ts"; ".tsx"; ".js"; ".jsx"; ".json"; ".css"; ".scss"; ".html"; ".md";
   ".sql"; ".prisma"].

(** The [useState] cells and refs of the component, and the one
    [localStorage] entry it reads and writes. *)
Record Model : Type := mkModel {
  code : string;
  fileList : list FileItem;
  docResult : string;
  appState : AppState;
  isReading : bool;
  isKeyModalOpen : bool;
  apiKeyInput : string;
  hasApiKey : bool;
  activeTab : Tab;
  chatSessionRef : option Chat;
  gemini_api_key : option string
}.

Definition initial : Model :=
  mkModel "" [] "" IDLE false false "" false doc None None.

Definition setCode (v : string) (m : Model) : Model :=
  mkModel v (fileList m) (docResult m) (appState m) (isReading m)
          (isKeyModalOpen m) (apiKeyInput m) (hasApiKey m) (activeTab m)
          (chatSessionRef m) (gemini_api_key m).
Definition setFileList (v : list FileItem) (m : Model) : Model :=
  mkModel (code m) v (docResult m) (appState m) (isReading m)
          (isKeyModalOpen m) (apiKeyInput m) (hasApiKey m) (activeTab m)
          (chatSessionRef m) (gemini_api_key m).
Definition setDocResult (v : string) (m : Model) : Model :=
  mkModel (code m) (fileList m) v (appState m) (isReading m)
          (isKeyModalOpen m) (apiKeyInput m) (hasApiKey m) (activeTab m)
          (chatSessionRef m) (gemini_api_key m).
Definition setAppState (v : AppState) (m : Model) : Model :=
  mkModel (code m) (fileList m) (docResult m) v (isReading m)
          (isKeyModalOpen m) (apiKeyInput m) (hasApiKey m) (activeTab m)
          (chatSessionRef m) (gemini_api_key m).
Definition setIsReading (v : bool) (m : Model) : Model :=
  mkModel (code m) (fileList m) (docResult m) (appState m) v
          (isKeyModalOpen m) (apiKeyInput m) (hasApiKey m) (activeTab m)
          (chatSessionRef m) (gemini_api_key m).
Definition setIsKeyModalOpen (v : bool) (m : Model) : Model :=
  mkModel (code m) (fileList m) (docResult m) (appState m) (isReading m)
          v (apiKeyInput m) (hasApiKey m) (activeTab m)
          (chatSessionRef m) (gemini_api_key m).
Definition setApiKeyInput (v : string) (m : Model) : Model :=
  mkModel (code m) (fileList m) (docResult m) (appState m) (isReading m)
          (isKeyModalOpen m) v (hasApiKey m) (activeTab m)
          (chatSessionRef m) (gemini_api_key m).
Definition setHasApiKey (v : bool) (m : Model) : Model :=
  mkModel (code m) (fileList m) (docResult m) (appState m) (isReading m)
          (isKeyModalOpen m) (apiKeyInput m) v (activeTab m)
          (chatSessionRef m) (gemini_api_key m).
Definition setActiveTab (v : Tab) (m : Model) : Model :=
  mkModel (code m) (fileList m) (docResult m) (appState m) (isReading m)
          (isKeyModalOpen m) (apiKeyInput m) (hasApiKey m) v
          (chatSessionRef m) (gemini_api_key m).
(** [chatSessionRef.current = v] *)
Definition setChatSession (v : option Chat) (m : Model) : Model :=
  mkModel (code m) (fileList m) (docResult m) (appState m) (isReading m)
          (isKeyModalOpen m) (apiKeyInput m) (hasApiKey m) (activeTab m)
          v (gemini_api_key m).
(** [localStorage.setItem('gemini_api_key', v)] *)
Definition localStorage_setItem (v : string) (m : Model) : Model :=
  mkModel (code m) (fileList m) (docResult m) (appState m) (isReading m)
          (isKeyModalOpen m) (apiKeyInput m) (hasApiKey m) (activeTab m)
          (chatSessionRef m) (Some v).

(** [localStorage.getItem('gemini_api_key')] followed by the test
    [!apiKey]: [null] and the empty string both count as absent. *)
Definition presentKey (m : Model) : option string :=
  match gemini_api_key m with
  | Some k => if falsy k then None else Some k
  | None => None
  end.

Definition handleSaveApiKey (m : Model) : Task Model unit :=
  if falsy (trim (apiKeyInput m)) then ret tt
  else
    set (localStorage_setItem (trim (apiKeyInput m))) ;;
    set (setHasApiKey true) ;;
    set (setIsKeyModalOpen false) ;;
    set (setApiKeyInput "").

(** The text put in the document slot by the [catch] branch. *)
Definition errorDocument (error : Thrown) : string :=
  "**Error generating documentation:** " ++ LF ++ LF ++
  match error with
  | ErrorObject message => message
  | OtherValue => "Unknown error"
  end.

(** [handleGenerate], closed over the render's [code] and reading the
    stored key when it is invoked. *)
Definition handleGenerate (m : Model) : Task Model unit :=
  if falsy (trim (code m)) then ret tt
  else
    match presentKey m with
    | None => set (setIsKeyModalOpen true)
    | Some apiKey =>
        set (setAppState GENERATING) ;;
        set (setDocResult "") ;;
        set (setChatSession None) ;;
        set (setActiveTab doc) ;;
        catch
          (markdown <- GeminiService.generateDocFromCode apiKey (code m) ;;
           set (setDocResult markdown) ;;
           catch
             (session <- GeminiService.createChatSession apiKey (code m) markdown ;;
              set (setChatSession (Some session)))
             (fun chatErr => ret tt) ;;
           set (setAppState SUCCESS))
          (fun error =>
             set (setDocResult (errorDocument error)) ;;
             set (setAppState ERROR))
    end.

(** The [disabled] attribute of the button whose [onClick] is
    [handleGenerate]. *)
Definition generateDisabled (m : Model) : bool :=
  (length (fileList m) =? 0)%nat || AppState_eqb (appState m) GENERATING.

(** A click on that button: a disabled button dispatches no click. *)
Definition clickGenerate (m : Model) : Task Model unit :=
  if generateDisabled m then ret tt else handleGenerate m.

Definition handleClear (m : Model) : Task Model unit :=
  set (setCode "") ;;
  set (setFileList []) ;;
  set (setDocResult "") ;;
  set (setAppState IDLE) ;;
  set (setChatSession None) ;;
  set (setActiveTab doc).

Definition assemble : list File -> list FileItem * string :=
  Assembler.assemble IGNORED_DIRS ALLOWED_EXTENSIONS.

Definition processFiles (files : list File) : Task Model unit :=
  set (setIsReading true) ;;
  tryFinally
    (catch
       (let '(validFiles, concatenatedCode) := assemble files in
        set (setFileList validFiles) ;;
        set (setCode concatenatedCode))
       (fun error => ret tt))                       (* console.error, alert *)
    (set (setIsReading false)).

(** [handleFileChange]: an empty selection is not processed. *)
Definition handleFileChange (files : list File) : Task Model unit :=
  match files with
  | [] => ret tt
  | _ :: _ => processFiles files
  end.

End App.

(** The second revision of the component ([src/unnamed/part_000]) runs the
    same loop over longer lists. *)
Module AppV2.

Definition IGNORED_DIRS : list string :=
  ["node_modules"; ".git"; "dist"; "build"; ".next"; "coverage"; ".idea";
   ".vscode"].

Definition ALLOWED_EXTENSIONS : list string :=
  [".ts"; ".tsx"; ".js"; ".jsx"; ".json"; ".css"; ".scss"; ".html"; ".md";
   ".sql"; ".prisma"; ".py"; ".go"; ".rs"].

Definition assemble : list File -> list FileItem * string :=
  Assembler.assemble IGNORED_DIRS ALLOWED_EXTENSIONS.

End AppV2.

(* ===================================================================== *)
(** ** [components/ChatInterface.tsx]                                     *)
(* ===================================================================== *)

Module ChatInterface.

(** [interface ChatMessage] of [types.ts]. *)
Record ChatMessage : Type := mkMessage {
  id : string;
  role : Role;
  text : string;
  timestamp : Z
}.

(** The prop [chatSession] and the three [useState] cells. *)
Record Model : Type := mkModel {
  chatSession : option Chat;
  messages : list ChatMessage;
  input : string;
  isSending : bool
}.

Definition setMessages (f : list ChatMessage -> list ChatMessage) (m : Model)
  : Model :=
  mkModel (chatSession m) (f (messages m)) (input m) (isSending m).
Definition setInput (v : string) (m : Model) : Model :=
  mkModel (chatSession m) (messages m) v (isSending m).
Definition setIsSending (v : bool) (m : Model) : Model :=
  mkModel (chatSession m) (messages m) (input m) v.

(** [prev => [...prev, msg]] *)
Definition append (msg : ChatMessage) (prev : list ChatMessage)
  : list ChatMessage := (prev ++ [msg])%list.

Definition greeting : string :=
  "我已经分析了您的代码和技术文档。您可以问我任何关于项目逻辑、数据结构或代码实现的问题。".
Definition noAnswer : string := "无法生成回答，请重试。".
Definition sendFailed : string :=
  "**错误**: 发送消息失败，请检查网络或 API Key。".

(** The effect that greets once a session is available. *)
Definition greet (m : Model) : Task Model unit :=
  match chatSession m, messages m with
  | Some _, [] =>
      now <- perform DateNow ;;
      set (setMessages (fun _ => [mkMessage "init" model greeting now]))
  | _, _ => ret tt
  end.

Definition handleSend (m : Model) : Task Model unit :=
  match chatSession m with
  | None => ret tt
  | Some session =>
      if falsy (trim (input m)) || isSending m then ret tt
      else
        idNow <- perform DateNow ;;
        tsNow <- perform DateNow ;;
        let userMsg := mkMessage (toString idNow) user (input m) tsNow in
        set (setMessages (append userMsg)) ;;
        set (setInput "") ;;
        set (setIsSending true) ;;
        tryFinally
          (catch
             (result <- await (SendMessage session (text userMsg)) ;;
              let responseText := response_text result in
              idNow' <- perform DateNow ;;
              tsNow' <- perform DateNow ;;
              let aiMsg :=
                mkMessage (toString (idNow' + 1)) model
                          (GeminiService.textOr responseText noAnswer) tsNow' in
              set (setMessages (append aiMsg)))
             (fun error =>
                idNow' <- perform DateNow ;;
                tsNow' <- perform DateNow ;;
                let errorMsg :=
                  mkMessage (toString (idNow' + 1)) model sendFailed tsNow' in
                set (setMessages (append errorMsg))))
          (set (setIsSending false))
  end.

(** Typing into the textarea. *)
Definition onChange (v : string) (m : Model) : Model := setInput v m.

(** The text of the model turn that follows a settled [sendMessage]. *)
Definition modelText (r : Settled GenerateContentResponse) : string :=
  match r with
  | Fulfilled result => GeminiService.textOr (response_text result) noAnswer
  | Rejected _ => sendFailed
  end.

End ChatInterface.

(* ===================================================================== *)
(** ** A scripted environment                                             *)
(* ===================================================================== *)

(** An environment that answers from prepared lists: clock readings and
    the settlements of the three remote calls, each consumed in order. *)
Module Script.

Record World : Type := mkWorld {
  clock : list Z;
  generations : list (Settled GenerateContentResponse);
  sessions : list (Settled Chat);
  replies : list (Settled GenerateContentResponse)
}.

Definition answer (R : Type) (e : Effect R) : World -> R * World :=
  match e in Effect T return World -> T * World with
  | GenerateContent _ _ => fun w =>
      match generations w with
      | r :: rest => (r, mkWorld (clock w) rest (sessions w) (replies w))
      | [] => (Rejected OtherValue, w)
      end
  | ChatsCreate _ _ => fun w =>
      match sessions w with
      | r :: rest => (r, mkWorld (clock w) (generations w) rest (replies w))
      | [] => (Rejected OtherValue, w)
      end
  | SendMessage _ _ => fun w =>
      match replies w with
      | r :: rest => (r, mkWorld (clock w) (generations w) (sessions w) rest)
      | [] => (Rejected OtherValue, w)
      end
  | DateNow => fun w =>
      match clock w with
      | t :: rest => (t, mkWorld rest (generations w) (sessions w) (replies w))
      | [] => (0%Z, w)
      end
  end.

End Script.

(* ===================================================================== *)
(** ** The words of the specification                                     *)
(* ===================================================================== *)

Module Spec.

Fixpoint hasChar (c : ascii) (s : string) : bool :=
  match s with
  | EmptyString => false
  | String a s' => Ascii.eqb a c || hasChar c s'
  end.

(** Concatenation of a sequence of texts. *)
Fixpoint flatten (l : list string) : string :=
  match l with
  | [] => EmptyString
  | s :: l' => s ++ flatten l'
  end.

(** Put a character in front of the first piece. *)
Definition extendFirst (c : ascii) (l : list string) : list string :=
  match l with
  | x :: r => String c x :: r
  | [] => [String c EmptyString]
  end.

(** The segments of a path: the pieces between its [/] separators. *)
Fixpoint segments (p : string) : list string :=
  match p with
  | EmptyString => [EmptyString]
  | String c p' =>
      if Ascii.eqb c "/" then EmptyString :: segments p'
      else extendFirst c (segments p')
  end.

(** [dir] is, exactly, one of the segments of [p]. *)
Definition hasSegment (p dir : string) : Prop := In dir (segments p).

(** The content an item was read to (nothing when the read failed). *)
Definition contentOf (f : File) : string :=
  match readAsText f with
  | Fulfilled content => content
  | Rejected _ => EmptyString
  end.

Definition readable (f : File) : bool :=
  match readAsText f with
  | Fulfilled _ => true
  | Rejected _ => false
  end.

Section Config.
Variables IGNORED_DIRS ALLOWED_EXTENSIONS : list string.

(** An accepted item passes both filter checks and is read. *)
Definition accepted (f : File) : bool :=
  negb (Assembler.inIgnoredDir IGNORED_DIRS (Assembler.pathOf f))
  && Assembler.isAllowed ALLOWED_EXTENSIONS (Assembler.pathOf f)
  && readable f.

Definition acceptedItems (files : list File) : list File :=
  filter accepted files.

(** The block of one accepted item: the header line, the raw content
    and two newlines. *)
Definition block (f : File) : string :=
  "--- START OF FILE " ++ Assembler.pathOf f ++ " ---" ++ LF
  ++ contentOf f ++ LF ++ LF.

Definition corpusText (files : list File) : string :=
  flatten (map block (acceptedItems files)).

Definition manifest (files : list File) : list FileItem :=
  map (fun f => mkFileItem (Assembler.pathOf f) (fsize f)) (acceptedItems files).

(** The path rule as the specification words it: some ignored name is a
    segment of the path, or the lowercase path ends with no allowed
    extension. *)
Definition excludedByPath (p : string) : Prop :=
  (exists dir, In dir IGNORED_DIRS /\ hasSegment p dir)
  \/ ~ (exists ext, In ext ALLOWED_EXTENSIONS
                    /\ endsWith (toLowerCase p) ext = true).

(** The lists for which an ignored name can only match a directory:
    no name and no extension holds a [/], and no lowercased name ends
    with an extension. *)
Definition separable : bool :=
  forallb (fun dir => negb (hasChar "/" dir)) IGNORED_DIRS
  && forallb (fun ext => negb (hasChar "/" ext)) ALLOWED_EXTENSIONS
  && forallb (fun dir =>
                forallb (fun ext => negb (endsWith (toLowerCase dir) ext))
                        ALLOWED_EXTENSIONS)
             IGNORED_DIRS.
End Config.

(** *** Reading a corpus back *)

(** The fixed part of a header line in front of the path. *)
Definition marker : string := "--- START OF FILE".


(** The marker starts at some position of [a] when [a] is followed by
    [rest] (the match may run on into [rest]). *)
Fixpoint startsInside (a rest : string) : bool :=
  match a with
  | EmptyString => false
  | String _ a' => String.prefix marker (a ++ rest) || startsInside a' rest
  end.






End Spec.

(* ===================================================================== *)
(** ** Concrete inputs                                                    *)
(* ===================================================================== *)

Module Examples.

(** Scenario A: three selected files. *)
Definition a_ts : File := mkFile "a.ts" "src/a.ts" 1 (Fulfilled "x").
Definition b_js : File := mkFile "b.js" "node_modules/b.js" 1 (Fulfilled "y").
Definition readme : File := mkFile "README.md" "" 1 (Fulfilled "z").

(** The same file under a directory name in two letter cases. *)
Definition upper_dir : File :=
  mkFile "a.ts" "NODE_MODULES/a.ts" 1 (Fulfilled "x").
Definition lower_dir : File :=
  mkFile "a.ts" "node_modules/a.ts" 1 (Fulfilled "x").

(** A file with an allowed name whose read fails. *)
Definition unreadable : File :=
  mkFile "a.ts" "" 1 (Rejected OtherValue).


(** A workspace with one loaded file and a stored key, at rest. *)
Definition loaded : App.Model :=
  App.mkModel (snd (App.assemble [a_ts])) (fst (App.assemble [a_ts])) ""
              IDLE false false "" true doc None (Some "key").

(** The same workspace once [handleGenerate] awaits its first call. *)
Definition generating : App.Model :=
  fst (start (App.handleGenerate loaded) loaded).

(** The same workspace without a stored key. *)
Definition keyless : App.Model :=
  App.mkModel (App.code loaded) (App.fileList loaded) "" IDLE false false ""
              false doc None None.

Definition quiet : Script.World := Script.mkWorld [] [] [] [].

(** Generation fails on its quota. *)
Definition quotaExceeded : Script.World :=
  Script.mkWorld [] [Rejected (ErrorObject "quota exceeded")] [] [].

(** Generation succeeds, session creation throws. *)
Definition noSession : Script.World :=
  Script.mkWorld [] [Fulfilled (mkResponse (Some "# Doc"))]
                 [Rejected (ErrorObject "chat unavailable")] [].

(** An open chat with one prior exchange. *)
Definition openChat : ChatInterface.Model :=
  ChatInterface.mkModel
    (Some (mkChat 0))
    [ ChatInterface.mkMessage "init" model ChatInterface.greeting 10;
      ChatInterface.mkMessage "20" user "hello" 20;
      ChatInterface.mkMessage "31" model "hi" 30 ]
    "why?" false.

(** A send that fails, then one that succeeds. *)
Definition failThenReply : Script.World :=
  Script.mkWorld [100; 100; 150; 150; 200; 200; 250; 250]%Z [] []
                 [Rejected (ErrorObject "network");
                  Fulfilled (mkResponse (Some "because"))].

(** A fresh chat, and two exchanges: the first question is sent at
    millisecond 1000 and answered at 1500, the second question is sent at
    1501 and answered at 2000. *)
Definition freshChat : ChatInterface.Model :=
  ChatInterface.mkModel
    (Some (mkChat 0))
    [ ChatInterface.mkMessage "init" model ChatInterface.greeting 900 ]
    "one" false.

Definition quickExchanges : Script.World :=
  Script.mkWorld [1000; 1000; 1500; 1500; 1501; 1501; 2000; 2000]%Z [] []
                 [Fulfilled (mkResponse (Some "first"));
                  Fulfilled (mkResponse (Some "second"))].

End Examples.

(* ===================================================================== *)
(** ** The components in use: settlements and user actions                *)
(* ===================================================================== *)

Module EventLoop.
Section Settle.
Context {W : Type}.
Variable answer : forall R, Effect R -> W -> R * W.

(** The environment settles the call a suspended handler awaits; the
    handler then runs on from the state the component has by then. *)
Definition settle {S A} (s : Suspended S A) (w : W) (st : S) : Run S W A :=
  match s with
  | Finished c => mkRun st w c []
  | Awaiting e k =>
      let '(r, w') := answer _ e w in
      runFrom answer (k r) w' st [call e]
  end.

(** [Date.now()] and [ai.chats.create] return at once; the two requests
    to the model are awaited. *)
Definition immediate {R} (e : Effect R) : bool :=
  match e with
  | DateNow => true
  | ChatsCreate _ _ => true
  | GenerateContent _ _ => false
  | SendMessage _ _ => false
  end.

(** A handler up to its first awaited request, the calls that return at
    once being answered on the way. *)
Fixpoint toAwait {S A} (t : Task S A) (w : W) (st : S)
  : S * W * Suspended S A :=
  match t with
  | Ret a => (st, w, Finished (Returned a))
  | Throw e => (st, w, Finished (Uncaught e))
  | Update f k => toAwait k w (f st)
  | Perform e k =>
      if immediate e
      then let '(r, w') := answer _ e w in toAwait (k r) w' st
      else (st, w, Awaiting e k)
  end.

End Settle.
End EventLoop.

(** The rest of what the page of [App.tsx] lets a user do. *)
Module Workspace.
Import App.

(** The effect run on mount: [if (storedKey) setHasApiKey(true)]. *)
Definition onMount (m : Model) : Task Model unit :=
  match presentKey m with
  | Some _ => set (setHasApiKey true)
  | None => ret tt
  end.

(** The page after mount, for what [localStorage] holds. *)
Definition boot (stored : option string) : Model :=
  let m := mkModel "" [] "" IDLE false false "" false doc None stored in
  fst (start (onMount m) m).

(** The chat tab: [disabled={appState !== AppState.SUCCESS}]. *)
Definition chatTabDisabled (m : Model) : bool :=
  negb (AppState_eqb (appState m) SUCCESS).

(** What the page offers.  The clear button is rendered while
    [fileList.length > 0], the upload area while [fileList.length === 0],
    the key field and its save button while the modal is open. *)
Inductive Action : Type :=
| OpenKeyModal
| CloseKeyModal
| TypeKey (v : string)
| ClickSave
| SelectFiles (files : list File)
| ClickClear
| ClickGenerate
| ClickDocTab
| ClickChatTab.

Definition handler (a : Action) (m : Model) : Task Model unit :=
  match a with
  | OpenKeyModal => set (setIsKeyModalOpen true)
  | CloseKeyModal =>
      if isKeyModalOpen m then set (setIsKeyModalOpen false) else ret tt
  | TypeKey v =>
      if isKeyModalOpen m then set (setApiKeyInput v) else ret tt
  | ClickSave =>
      if isKeyModalOpen m then handleSaveApiKey m else ret tt
  | SelectFiles files =>
      if (length (fileList m) =? 0)%nat then handleFileChange files else ret tt
  | ClickClear =>
      if (length (fileList m) =? 0)%nat then ret tt else handleClear m
  | ClickGenerate => clickGenerate m
  | ClickDocTab => set (setActiveTab doc)
  | ClickChatTab =>
      if chatTabDisabled m then ret tt else set (setActiveTab chat)
  end.

Section Use.
Context {W : Type}.
Variable answer : forall R, Effect R -> W -> R * W.

(** A sequence of actions, the handler of each run to its end before the
    next action. *)
Fixpoint perform_all (actions : list Action) (w : W) (m : Model) : Model * W :=
  match actions with
  | [] => (m, w)
  | a :: rest =>
      let r := run answer (handler a m) w m in
      perform_all rest (world r) (final r)
  end.
End Use.

(** What holds of the page between actions. *)
Record Settled_page (m : Model) : Prop := mkSettled {
  at_rest : appState m <> GENERATING;
  idle_is_blank : appState m = IDLE -> docResult m = "" /\ chatSessionRef m = None;
  success_has_document : appState m = SUCCESS -> docResult m <> "";
  error_has_no_session : appState m = ERROR -> chatSessionRef m = None;
  chat_tab_needs_success : activeTab m = chat -> appState m = SUCCESS;
  result_needs_files : appState m <> IDLE -> fileList m <> [];
  files_iff_corpus : fileList m = [] <-> trim (code m) = "";
  badge_needs_key : hasApiKey m = true -> presentKey m <> None
}.

End Workspace.

Module Transcript.
Import ChatInterface.

(** The component when it is mounted with its prop. *)
Definition mount (session : option Chat) : Model :=
  mkModel session [] "" false.

(** The send button: [disabled={!input.trim() || isSending}]. *)
Definition sendDisabled (m : Model) : bool :=
  falsy (trim (input m)) || isSending m.

(** The ids of a transcript are distinct, and each is the greeting's or
    the decimal of a number below [bound]. *)
Definition stampedBelow (bound : Z) (l : list ChatMessage) : Prop :=
  NoDup (map id l)
  /\ Forall (fun msg => id msg = "init"
                        \/ exists n, (n < bound)%Z /\ id msg = toString n) l.

End Transcript.

(** Further concrete inputs. *)
Module Samples.

(** Generation and session creation both succeed. *)
Definition bothSucceed : Script.World :=
  Script.mkWorld [] [Fulfilled (mkResponse (Some "# Doc"))]
                 [Fulfilled (mkChat 7)] [].

(** The workspace of [Examples.loaded] with the key modal open and a key
    typed with U+00A0 and a space before it and U+3000 after it, nothing
    stored yet. *)
Definition typingKey : App.Model :=
  App.mkModel (App.code Examples.loaded) (App.fileList Examples.loaded) ""
              IDLE false true
              (utf8 [194; 160] ++ " secret" ++ utf8 [227; 128; 128])
              false doc None None.

(** Files are selected, a generation succeeds, the chat tab is opened. *)
Definition toTheChat : list Workspace.Action :=
  [ Workspace.SelectFiles [Examples.a_ts; Examples.b_js; Examples.readme];
    Workspace.ClickGenerate;
    Workspace.ClickChatTab ].

(** Files are selected and nothing else. *)
Definition justLoaded : list Workspace.Action :=
  [ Workspace.SelectFiles [Examples.a_ts] ].


End Samples.

(* ===================================================================== *)
(** * Properties                                                          *)
(* ===================================================================== *)

Import Spec.

(** ** Strings *)

Lemma append_nil_right (s : string) : s ++ "" = s.
Proof. induction s as [|c s IH]; simpl; [reflexivity | now rewrite IH]. Qed.

Lemma append_associative (a b c : string) : (a ++ b) ++ c = a ++ (b ++ c).
Proof. induction a as [|x a IH]; simpl; [reflexivity | now rewrite IH]. Qed.

Lemma length_append (a b : string) :
  String.length (a ++ b) = String.length a + String.length b.
Proof. induction a as [|x a IH]; simpl; [reflexivity | now rewrite IH]. Qed.

Lemma prefix_nil (s : string) : String.prefix "" s = true.
Proof. destruct s; reflexivity. Qed.

Lemma prefix_cons (a b : ascii) (p s : string) :
  String.prefix (String a p) (String b s) = Ascii.eqb a b && String.prefix p s.
Proof.
  simpl. destruct (ascii_dec a b) as [->|n].
  - now rewrite Ascii.eqb_refl.
  - apply Ascii.eqb_neq in n. now rewrite n.
Qed.

Lemma prefix_append (p r : string) : String.prefix p (p ++ r) = true.
Proof.
  induction p as [|c p IH]; simpl append.
  - apply prefix_nil.
  - now rewrite prefix_cons, Ascii.eqb_refl, IH.
Qed.

Lemma prefix_inv (p s : string) :
  String.prefix p s = true -> exists r, s = p ++ r.
Proof.
  revert s; induction p as [|c p IH]; intros s H.
  - now exists s.
  - destruct s as [|b s]; [discriminate|].
    rewrite prefix_cons in H. apply andb_true_iff in H as [Hc Hp].
    apply Ascii.eqb_eq in Hc as ->. destruct (IH _ Hp) as [r ->].
    now exists r.
Qed.

(** ** The loop of [processFiles] against the words of the specification *)

Section AssemblerFacts.
Variables ignored allowed : list string.

Lemma loopBody_accepted (acc : list FileItem * string) (f : File) :
  accepted ignored allowed f = true ->
  Assembler.loopBody ignored allowed acc f =
    ((fst acc ++ [mkFileItem (Assembler.pathOf f) (fsize f)])%list,
     snd acc ++ block f).
Proof.
  unfold accepted, Assembler.loopBody, block, Assembler.fileBlock, contentOf, readable.
  destruct acc as [v c]; cbn [fst snd].
  destruct (Assembler.inIgnoredDir ignored (Assembler.pathOf f)); [discriminate|].
  destruct (Assembler.isAllowed allowed (Assembler.pathOf f)); [|discriminate].
  destruct (readAsText f); [reflexivity | discriminate].
Qed.

Lemma loopBody_dropped (acc : list FileItem * string) (f : File) :
  accepted ignored allowed f = false ->
  Assembler.loopBody ignored allowed acc f = acc.
Proof.
  unfold accepted, Assembler.loopBody, readable.
  destruct acc as [v c].
  destruct (Assembler.inIgnoredDir ignored (Assembler.pathOf f)); [reflexivity|].
  destruct (Assembler.isAllowed allowed (Assembler.pathOf f)); [|reflexivity].
  destruct (readAsText f); [discriminate | reflexivity].
Qed.

(** The loop invariant: from any accumulators, the loop appends the
    manifest and the text of the files it is given. *)
Lemma loop_from (files : list File) (acc : list FileItem * string) :
  fold_left (Assembler.loopBody ignored allowed) files acc =
    ((fst acc ++ manifest ignored allowed files)%list,
     snd acc ++ corpusText ignored allowed files).
Proof.
  revert acc; induction files as [|f files IH]; intros [v c]; cbn [fold_left].
  - unfold manifest, corpusText; cbn. now rewrite app_nil_r, append_nil_right.
  - rewrite IH. unfold manifest, corpusText, acceptedItems. cbn [filter].
    destruct (accepted ignored allowed f) eqn:E.
    + rewrite (loopBody_accepted _ _ E). cbn [fst snd map flatten].
      now rewrite <- app_assoc, append_associative.
    + now rewrite (loopBody_dropped _ _ E).
Qed.

Lemma assemble_spec (files : list File) :
  Assembler.assemble ignored allowed files =
    (manifest ignored allowed files, corpusText ignored allowed files).
Proof. unfold Assembler.assemble. now rewrite loop_from. Qed.

End AssemblerFacts.

(** C2.  For every sequence of files and every start state, [processFiles]
    leaves in [code] the concatenation, in selection order, of one block
    [--- START OF FILE <path> ---], newline, raw content, two newlines per
    accepted item, and in [fileList] the (path, size) pairs of exactly those
    items in the same order; it issues no external call. *)
Theorem processFiles_order_and_format :
  forall (W : Type) (answer : forall R, Effect R -> W -> R * W) (w : W)
         (m : App.Model) (files : list File),
    let items := filter (accepted App.IGNORED_DIRS App.ALLOWED_EXTENSIONS) files in
    let r := run answer (App.processFiles files) w m in
    App.code (final r) =
      flatten (map (fun f => "--- START OF FILE " ++ Assembler.pathOf f ++ " ---"
                             ++ LF ++ contentOf f ++ LF ++ LF) items)
    /\ App.fileList (final r) =
         map (fun f => mkFileItem (Assembler.pathOf f) (fsize f)) items
    /\ App.assemble files = (App.fileList (final r), App.code (final r))
    /\ completion r = Returned tt
    /\ issued r = [].
Proof.
  intros W answer w m files items r.
  assert (E : App.assemble files =
              (manifest App.IGNORED_DIRS App.ALLOWED_EXTENSIONS files,
               corpusText App.IGNORED_DIRS App.ALLOWED_EXTENSIONS files))
    by apply assemble_spec.
  subst r. unfold App.processFiles. rewrite E. cbn.
  repeat split; reflexivity.
Qed.

(** ** The generation workflow *)

Lemma falsy_false_iff (s : string) : falsy s = false <-> s <> "".
Proof. destruct s; cbn; split; intros; congruence. Qed.

Lemma presentKey_absent (m : App.Model) :
  App.gemini_api_key m = None \/ App.gemini_api_key m = Some "" ->
  App.presentKey m = None.
Proof. unfold App.presentKey. intros [-> | ->]; reflexivity. Qed.

Lemma presentKey_present (m : App.Model) (apiKey : string) :
  App.gemini_api_key m = Some apiKey -> apiKey <> "" ->
  App.presentKey m = Some apiKey.
Proof.
  unfold App.presentKey. intros -> H. apply falsy_false_iff in H. now rewrite H.
Qed.

Section Workflow.
Context {W : Type}.
Variable answer : forall R, Effect R -> W -> R * W.

(** C7.  With a non-blank corpus and no stored credential (none, or an
    empty one), [handleGenerate] from any workflow state only opens the key
    modal: the workflow state, the document and the session are unchanged,
    no call is issued, and the state becomes [ERROR] only if it already
    was. *)
Theorem handleGenerate_missing_credential :
  forall (w : W) (m : App.Model),
    trim (App.code m) <> "" ->
    App.gemini_api_key m = None \/ App.gemini_api_key m = Some "" ->
    let r := run answer (App.handleGenerate m) w m in
    final r = App.setIsKeyModalOpen true m
    /\ App.isKeyModalOpen (final r) = true
    /\ App.appState (final r) = App.appState m
    /\ App.docResult (final r) = App.docResult m
    /\ App.chatSessionRef (final r) = App.chatSessionRef m
    /\ issued r = []
    /\ world r = w
    /\ completion r = Returned tt
    /\ (App.appState (final r) = ERROR -> App.appState m = ERROR)
    /\ run answer (GeminiService.generateDocFromCode "" (App.code m)) w m
       = mkRun m w
           (Uncaught (ErrorObject "API Key is required to generate documentation."))
           [].
Proof.
  intros w m Hcode Hkey r. subst r. unfold App.handleGenerate.
  apply falsy_false_iff in Hcode. rewrite Hcode.
  rewrite (presentKey_absent _ Hkey). cbn.
  repeat split; auto.
Qed.

(** C5.  When the stored credential is present, the corpus is non-blank
    and the generation request is rejected, [handleGenerate] passes through
    [GENERATING] (where it awaits that one request) and ends in [ERROR];
    the document slot holds the error heading followed by the message of
    the [Error] thrown (or by [Unknown error] when the thrown value is not
    an [Error]); the session is absent and no session was requested. *)
Theorem handleGenerate_document_failure :
  forall (w w' : W) (m : App.Model) (apiKey : string) (e : Thrown),
    trim (App.code m) <> "" ->
    App.gemini_api_key m = Some apiKey -> apiKey <> "" ->
    answer _ (GeminiService.docRequest apiKey (App.code m)) w = (Rejected e, w') ->
    let r := run answer (App.handleGenerate m) w m in
    App.appState (fst (start (App.handleGenerate m) m)) = GENERATING
    /\ inFlight (snd (start (App.handleGenerate m) m))
       = Some (call (GeminiService.docRequest apiKey (App.code m)))
    /\ App.appState (final r) = ERROR
    /\ App.docResult (final r) =
         "**Error generating documentation:** " ++ LF ++ LF ++
         match e with
         | ErrorObject message => message
         | OtherValue => "Unknown error"
         end
    /\ App.chatSessionRef (final r) = None
    /\ issued r = [call (GeminiService.docRequest apiKey (App.code m))]
    /\ completion r = Returned tt.
Proof.
  intros w w' m apiKey e Hcode Hkey Hne Hans r. subst r.
  unfold App.handleGenerate.
  apply falsy_false_iff in Hcode. rewrite Hcode.
  rewrite (presentKey_present _ _ Hkey Hne).
  unfold GeminiService.generateDocFromCode.
  apply falsy_false_iff in Hne. rewrite Hne.
  unfold GeminiService.docRequest in *. cbn. rewrite Hans. cbn.
  repeat split; reflexivity.
Qed.

(** C6.  When the generation request is fulfilled and the creation of the
    chat session throws, [handleGenerate] still ends in [SUCCESS]: the
    document slot holds the generated text (or the placeholder when the
    response has no text) and the session is absent. *)
Theorem handleGenerate_session_failure :
  forall (w w1 w2 : W) (m : App.Model) (apiKey : string)
         (response : GenerateContentResponse) (e : Thrown),
    trim (App.code m) <> "" ->
    App.gemini_api_key m = Some apiKey -> apiKey <> "" ->
    let markdown :=
      GeminiService.textOr (response_text response) "No response generated." in
    let sessionRequest :=
      ChatsCreate apiKey (GeminiService.seedHistory (App.code m) markdown) in
    answer _ (GeminiService.docRequest apiKey (App.code m)) w = (Fulfilled response, w1) ->
    answer _ sessionRequest w1 = (Rejected e, w2) ->
    let r := run answer (App.handleGenerate m) w m in
    App.appState (final r) = SUCCESS
    /\ App.docResult (final r) = markdown
    /\ App.chatSessionRef (final r) = None
    /\ issued r = [call (GeminiService.docRequest apiKey (App.code m)); call sessionRequest]
    /\ completion r = Returned tt.
Proof.
  intros w w1 w2 m apiKey response e Hcode Hkey Hne markdown sessionRequest
         Hdoc Hsess r.
  subst r sessionRequest markdown. unfold App.handleGenerate.
  apply falsy_false_iff in Hcode. rewrite Hcode.
  rewrite (presentKey_present _ _ Hkey Hne).
  unfold GeminiService.generateDocFromCode, GeminiService.createChatSession.
  apply falsy_false_iff in Hne. rewrite Hne.
  unfold GeminiService.docRequest in *. cbn. rewrite Hdoc. cbn. rewrite Hsess. cbn.
  repeat split; reflexivity.
Qed.

(** C1.  [handleGenerate] is invoked from the click of one button, which
    is disabled while the workflow state is [GENERATING]: starting a
    generation in that state is a no-op, from any state of the page: the
    handler is not entered, the state is unchanged and no call is issued
    beside the one in flight. *)
Theorem clickGenerate_while_generating :
  forall (w : W) (m : App.Model),
    App.appState m = GENERATING ->
    App.generateDisabled m = true
    /\ App.clickGenerate m = Ret tt
    /\ start (App.clickGenerate m) m = (m, Finished (Returned tt))
    /\ run answer (App.clickGenerate m) w m = mkRun m w (Returned tt) [].
Proof.
  intros w m H.
  assert (D : App.generateDisabled m = true).
  { unfold App.generateDisabled. rewrite H. apply orb_true_r. }
  unfold App.clickGenerate. rewrite D. repeat split; reflexivity.
Qed.

End Workflow.

Lemma handleGenerate_missing_credential_witness :
  let m := Examples.keyless in
  let r := run Script.answer (App.handleGenerate m) Examples.quiet m in
  trim (App.code m) <> ""
  /\ (App.gemini_api_key m = None \/ App.gemini_api_key m = Some "")
  /\ final r = App.setIsKeyModalOpen true m
  /\ App.isKeyModalOpen (final r) = true
  /\ App.appState (final r) = App.appState m
  /\ App.docResult (final r) = App.docResult m
  /\ App.chatSessionRef (final r) = App.chatSessionRef m
  /\ issued r = []
  /\ world r = Examples.quiet
  /\ completion r = Returned tt
  /\ (App.appState (final r) = ERROR -> App.appState m = ERROR)
  /\ run Script.answer (GeminiService.generateDocFromCode "" (App.code m))
         Examples.quiet m
     = mkRun m Examples.quiet
         (Uncaught (ErrorObject "API Key is required to generate documentation."))
         [].
Proof.
  assert (H1 : trim (App.code Examples.keyless) <> "") by (vm_compute; discriminate).
  assert (H2 : App.gemini_api_key Examples.keyless = None
               \/ App.gemini_api_key Examples.keyless = Some "")
    by (left; reflexivity).
  split; [exact H1 | split; [exact H2 |]].
  exact (handleGenerate_missing_credential Script.answer Examples.quiet
           Examples.keyless H1 H2).
Defined.

Lemma handleGenerate_document_failure_witness :
  let m := Examples.loaded in
  let r := run Script.answer (App.handleGenerate m) Examples.quotaExceeded m in
  App.appState (final r) = ERROR
  /\ App.docResult (final r) =
       "**Error generating documentation:** " ++ LF ++ LF ++ "quota exceeded"
  /\ App.chatSessionRef (final r) = None.
Proof.
  assert (H1 : trim (App.code Examples.loaded) <> "") by (vm_compute; discriminate).
  assert (H2 : "key" <> "") by discriminate.
  destruct (handleGenerate_document_failure Script.answer
              Examples.quotaExceeded Examples.quiet Examples.loaded "key"
              (ErrorObject "quota exceeded") H1 eq_refl H2 eq_refl)
    as (_ & _ & Hs & Hd & Hc & _).
  split; [exact Hs | split; [exact Hd | exact Hc]].
Defined.

Lemma handleGenerate_session_failure_witness :
  let m := Examples.loaded in
  let r := run Script.answer (App.handleGenerate m) Examples.noSession m in
  App.appState (final r) = SUCCESS
  /\ App.docResult (final r) = "# Doc"
  /\ App.chatSessionRef (final r) = None.
Proof.
  assert (H1 : trim (App.code Examples.loaded) <> "") by (vm_compute; discriminate).
  assert (H2 : "key" <> "") by discriminate.
  destruct (handleGenerate_session_failure Script.answer
              Examples.noSession
              (Script.mkWorld [] [] [Rejected (ErrorObject "chat unavailable")] [])
              Examples.quiet Examples.loaded "key"
              (mkResponse (Some "# Doc")) (ErrorObject "chat unavailable")
              H1 eq_refl H2 eq_refl eq_refl)
    as (Hs & Hd & Hc & _).
  split; [exact Hs | split; [exact Hd | exact Hc]].
Defined.

Lemma clickGenerate_while_generating_witness :
  App.appState Examples.generating = GENERATING
  /\ App.clickGenerate Examples.generating = Ret tt
  /\ run Script.answer (App.clickGenerate Examples.generating)
         Examples.noSession Examples.generating
     = mkRun Examples.generating Examples.noSession (Returned tt) [].
Proof.
  assert (H : App.appState Examples.generating = GENERATING) by reflexivity.
  destruct (clickGenerate_while_generating Script.answer Examples.noSession
              Examples.generating H) as (_ & Hc & _ & Hr).
  split; [exact H | split; [exact Hc | exact Hr]].
Defined.


(** ** The chat transcript *)

Section Transcript.
Context {W : Type}.
Variable answer : forall R, Effect R -> W -> R * W.

Import ChatInterface.

(** One exchange: what [handleSend] does when its guard lets it pass. *)
Lemma handleSend_exchange :
  forall (w w1 w2 w3 w4 w5 : W) (m : Model) (session : Chat)
         (t0 t1 t2 t3 : Z) (r : Settled GenerateContentResponse),
    chatSession m = Some session ->
    trim (input m) <> "" ->
    isSending m = false ->
    answer _ DateNow w = (t0, w1) ->
    answer _ DateNow w1 = (t1, w2) ->
    answer _ (SendMessage session (input m)) w2 = (r, w3) ->
    answer _ DateNow w3 = (t2, w4) ->
    answer _ DateNow w4 = (t3, w5) ->
    run answer (handleSend m) w m =
      mkRun
        (mkModel (Some session)
                 (messages m ++
                    [ mkMessage (toString t0) user (input m) t1;
                      mkMessage (toString (t2 + 1)) model (modelText r) t3 ])%list
                 "" false)
        w5 (Returned tt)
        [ call DateNow; call DateNow; call (SendMessage session (input m));
          call DateNow; call DateNow ].
Proof.
  intros w w1 w2 w3 w4 w5 m session t0 t1 t2 t3 r
         Hs Hin Hsend H0 H1 Hr H2 H3.
  unfold handleSend. rewrite Hs, Hsend.
  apply falsy_false_iff in Hin. rewrite Hin.
  cbn. rewrite H0. cbn. rewrite H1. cbn. rewrite Hr.
  destruct r as [result | err]; cbn; rewrite H2; cbn; rewrite H3; cbn;
    unfold append, setIsSending, setMessages, setInput; cbn;
    rewrite Hs, <- app_assoc; reflexivity.
Qed.

(** C8.  Two consecutive sends on an open session, however each is
    settled.  Each send appends exactly one user turn carrying the typed
    text, followed by exactly one model turn: the response text (or the
    no-answer notice) when the send is fulfilled, the fixed error notice
    when it is rejected.  Earlier turns, among them a failed user turn, stay
    in place; after each send the session is still held and the sending
    flag is down, so the next send goes through; each send issues one
    [sendMessage]. *)
Theorem handleSend_appends_turns :
  forall (w w1 w2 w3 w4 w5 w6 w7 w8 w9 w10 : W) (m : Model) (session : Chat)
         (t0 t1 t2 t3 t4 t5 t6 t7 : Z) (next : string)
         (r1 r2 : Settled GenerateContentResponse),
    chatSession m = Some session ->
    trim (input m) <> "" ->
    isSending m = false ->
    trim next <> "" ->
    answer _ DateNow w = (t0, w1) ->
    answer _ DateNow w1 = (t1, w2) ->
    answer _ (SendMessage session (input m)) w2 = (r1, w3) ->
    answer _ DateNow w3 = (t2, w4) ->
    answer _ DateNow w4 = (t3, w5) ->
    answer _ DateNow w5 = (t4, w6) ->
    answer _ DateNow w6 = (t5, w7) ->
    answer _ (SendMessage session next) w7 = (r2, w8) ->
    answer _ DateNow w8 = (t6, w9) ->
    answer _ DateNow w9 = (t7, w10) ->
    let first := run answer (handleSend m) w m in
    let typed := onChange next (final first) in
    let second := run answer (handleSend typed) (world first) typed in
    messages (final first) =
      (messages m ++
         [ mkMessage (toString t0) user (input m) t1;
           mkMessage (toString (t2 + 1)) model (modelText r1) t3 ])%list
    /\ chatSession (final first) = Some session
    /\ isSending (final first) = false
    /\ input (final first) = ""
    /\ issued first =
         [ call DateNow; call DateNow; call (SendMessage session (input m));
           call DateNow; call DateNow ]
    /\ messages (final second) =
         (messages m ++
            [ mkMessage (toString t0) user (input m) t1;
              mkMessage (toString (t2 + 1)) model (modelText r1) t3;
              mkMessage (toString t4) user next t5;
              mkMessage (toString (t6 + 1)) model (modelText r2) t7 ])%list
    /\ chatSession (final second) = Some session
    /\ isSending (final second) = false
    /\ issued second =
         [ call DateNow; call DateNow; call (SendMessage session next);
           call DateNow; call DateNow ].
Proof.
  intros w w1 w2 w3 w4 w5 w6 w7 w8 w9 w10 m session
         t0 t1 t2 t3 t4 t5 t6 t7 next r1 r2
         Hs Hin Hsend Hnext H0 H1 Hr1 H2 H3 H4 H5 Hr2 H6 H7 first typed second.
  assert (E1 := handleSend_exchange w w1 w2 w3 w4 w5 m session t0 t1 t2 t3 r1
                  Hs Hin Hsend H0 H1 Hr1 H2 H3).
  fold first in E1.
  assert (Et : typed =
               mkModel (Some session)
                 (messages m ++
                    [ mkMessage (toString t0) user (input m) t1;
                      mkMessage (toString (t2 + 1)) model (modelText r1) t3 ])%list
                 next false).
  { subst typed. rewrite E1. reflexivity. }
  assert (E2 := handleSend_exchange w5 w6 w7 w8 w9 w10
                  (mkModel (Some session)
                     (messages m ++
                        [ mkMessage (toString t0) user (input m) t1;
                          mkMessage (toString (t2 + 1)) model (modelText r1) t3 ])%list
                     next false)
                  session t4 t5 t6 t7 r2 eq_refl Hnext eq_refl H4 H5 Hr2 H6 H7).
  cbn [chatSession input isSending messages] in E2.
  rewrite <- Et in E2. replace w5 with (world first) in E2 at 1 by now rewrite E1.
  fold second in E2.
  rewrite E2, E1. cbn [final messages chatSession isSending input issued].
  rewrite <- app_assoc. cbn [app]. repeat split; reflexivity.
Qed.

End Transcript.

Lemma handleSend_appends_turns_witness :
  let m := Examples.openChat in
  let first := run Script.answer (ChatInterface.handleSend m) Examples.failThenReply m in
  let typed := ChatInterface.onChange "and then?" (final first) in
  let second := run Script.answer (ChatInterface.handleSend typed) (world first) typed in
  ChatInterface.messages (final second) =
    (ChatInterface.messages m ++
       [ ChatInterface.mkMessage "100" user "why?" 100;
         ChatInterface.mkMessage "151" model ChatInterface.sendFailed 150;
         ChatInterface.mkMessage "200" user "and then?" 200;
         ChatInterface.mkMessage "251" model "because" 250 ])%list
  /\ ChatInterface.chatSession (final second) = Some (mkChat 0).
Proof.
  assert (H1 : trim (ChatInterface.input Examples.openChat) <> "")
    by (vm_compute; discriminate).
  assert (H2 : trim "and then?" <> "") by (vm_compute; discriminate).
  destruct (handleSend_appends_turns Script.answer
              Examples.failThenReply
              (Script.mkWorld [100; 150; 150; 200; 200; 250; 250]%Z [] []
                 [Rejected (ErrorObject "network");
                  Fulfilled (mkResponse (Some "because"))])
              (Script.mkWorld [150; 150; 200; 200; 250; 250]%Z [] []
                 [Rejected (ErrorObject "network");
                  Fulfilled (mkResponse (Some "because"))])
              (Script.mkWorld [150; 150; 200; 200; 250; 250]%Z [] []
                 [Fulfilled (mkResponse (Some "because"))])
              (Script.mkWorld [150; 200; 200; 250; 250]%Z [] []
                 [Fulfilled (mkResponse (Some "because"))])
              (Script.mkWorld [200; 200; 250; 250]%Z [] []
                 [Fulfilled (mkResponse (Some "because"))])
              (Script.mkWorld [200; 250; 250]%Z [] []
                 [Fulfilled (mkResponse (Some "because"))])
              (Script.mkWorld [250; 250]%Z [] []
                 [Fulfilled (mkResponse (Some "because"))])
              (Script.mkWorld [250; 250]%Z [] [] [])
              (Script.mkWorld [250]%Z [] [] [])
              (Script.mkWorld [] [] [] [])
              Examples.openChat (mkChat 0)
              100%Z 100%Z 150%Z 150%Z 200%Z 200%Z 250%Z 250%Z "and then?"
              (Rejected (ErrorObject "network"))
              (Fulfilled (mkResponse (Some "because")))
              eq_refl H1 eq_refl H2
              eq_refl eq_refl eq_refl eq_refl eq_refl
              eq_refl eq_refl eq_refl eq_refl eq_refl)
    as (_ & _ & _ & _ & _ & Hm & Hc & _).
  split; [exact Hm | exact Hc].
Defined.

(** C9, evaluated where it fails.  The first answer arrives at millisecond
    1500 and gets the id of the next millisecond; the second question is
    sent in that next millisecond and gets the same id: the transcript holds
    two distinct messages with id [1501]. *)
Theorem handleSend_duplicate_ids :
  let m := Examples.freshChat in
  let first := run Script.answer (ChatInterface.handleSend m) Examples.quickExchanges m in
  let typed := ChatInterface.onChange "two" (final first) in
  let second := run Script.answer (ChatInterface.handleSend typed) (world first) typed in
  map ChatInterface.id (ChatInterface.messages (final second))
    = ["init"; "1000"; "1501"; "1501"; "2001"]
  /\ map ChatInterface.role (ChatInterface.messages (final second))
    = [model; user; model; user; model]
  /\ ~ NoDup (map ChatInterface.id (ChatInterface.messages (final second))).
Proof.
  cbv zeta.
  assert (E : map ChatInterface.id
                (ChatInterface.messages
                   (final
                      (run Script.answer
                         (ChatInterface.handleSend
                            (ChatInterface.onChange "two"
                               (final (run Script.answer
                                         (ChatInterface.handleSend Examples.freshChat)
                                         Examples.quickExchanges Examples.freshChat))))
                         (world (run Script.answer
                                   (ChatInterface.handleSend Examples.freshChat)
                                   Examples.quickExchanges Examples.freshChat))
                         (ChatInterface.onChange "two"
                            (final (run Script.answer
                                      (ChatInterface.handleSend Examples.freshChat)
                                      Examples.quickExchanges Examples.freshChat))))))
              = ["init"; "1000"; "1501"; "1501"; "2001"]) by (vm_compute; reflexivity).
  split; [exact E | split; [vm_compute; reflexivity |]].
  rewrite E. intros N.
  inversion N as [|? ? _ N1]; subst.
  inversion N1 as [|? ? _ N2]; subst.
  inversion N2 as [|? ? Hn _]; subst.
  apply Hn. left. reflexivity.
Qed.

(** ** The two filter checks *)

Lemma lower_ascii_idempotent (c : ascii) :
  lower_ascii (lower_ascii c) = lower_ascii c.
Proof. destruct c as [[] [] [] [] [] [] [] []]; reflexivity. Qed.

Lemma toLowerCase_idempotent (s : string) :
  toLowerCase (toLowerCase s) = toLowerCase s.
Proof.
  induction s as [|c s IH]; cbn [toLowerCase]; [reflexivity|].
  now rewrite lower_ascii_idempotent, IH.
Qed.

Lemma isAllowed_ignores_case (allowed : list string) (p : string) :
  Assembler.isAllowed allowed (toLowerCase p) = Assembler.isAllowed allowed p.
Proof.
  unfold Assembler.isAllowed. now rewrite toLowerCase_idempotent.
Qed.

(** C10.  The extension check reads the lowercased path, so it does not
    see the letter case of a path; the directory check compares the path as
    it is.  Hence [NODE_MODULES/a.ts] is accepted into manifest and corpus
    while [node_modules/a.ts] is dropped, in both revisions of the
    component. *)
Theorem filter_checks_differ_in_case_sensitivity :
  (forall (allowed : list string) (p : string),
      Assembler.isAllowed allowed (toLowerCase p) = Assembler.isAllowed allowed p)
  /\ Assembler.inIgnoredDir App.IGNORED_DIRS "NODE_MODULES/a.ts" = false
  /\ Assembler.inIgnoredDir App.IGNORED_DIRS (toLowerCase "NODE_MODULES/a.ts") = true
  /\ App.assemble [Examples.upper_dir] =
       ([mkFileItem "NODE_MODULES/a.ts" 1],
        "--- START OF FILE NODE_MODULES/a.ts ---" ++ LF ++ "x" ++ LF ++ LF)
  /\ App.assemble [Examples.lower_dir] = ([], "")
  /\ AppV2.assemble [Examples.upper_dir] =
       ([mkFileItem "NODE_MODULES/a.ts" 1],
        "--- START OF FILE NODE_MODULES/a.ts ---" ++ LF ++ "x" ++ LF ++ LF)
  /\ AppV2.assemble [Examples.lower_dir] = ([], "").
Proof.
  split; [exact isAllowed_ignores_case|].
  repeat split; vm_compute; reflexivity.
Qed.

Lemma segments_nonempty (p : string) : segments p <> [].
Proof.
  destruct p as [|c p]; cbn [segments]; [discriminate|].
  destruct (Ascii.eqb c "/"); [discriminate|].
  unfold extendFirst. destruct (segments p); discriminate.
Qed.

Lemma segments_cons (p : string) : exists x r, segments p = x :: r.
Proof.
  destruct (segments p) as [|x r] eqn:E.
  - now apply segments_nonempty in E.
  - now exists x, r.
Qed.

(** A path that starts with [d/] has [d] as its first segment, and more. *)
Lemma prefix_dir_first_segment (d p : string) :
  hasChar "/" d = false ->
  String.prefix (d ++ "/") p = true ->
  exists r, segments p = d :: r /\ r <> [].
Proof.
  revert p; induction d as [|a d IH]; intros p Hd H.
  - destruct p as [|c p]; [discriminate|].
    cbn [append] in H. rewrite prefix_cons in H.
    apply andb_true_iff in H as [Hc _]. apply Ascii.eqb_eq in Hc as <-.
    cbn [segments]. rewrite Ascii.eqb_refl.
    exists (segments p). split; [reflexivity | apply segments_nonempty].
  - destruct p as [|c p]; [discriminate|].
    cbn [append] in H. rewrite prefix_cons in H.
    apply andb_true_iff in H as [Hc Hp]. apply Ascii.eqb_eq in Hc as <-.
    cbn [hasChar] in Hd. apply orb_false_iff in Hd as [Ha Hd].
    destruct (IH p Hd Hp) as (r & E & Hr).
    cbn [segments]. rewrite Ha, E. cbn [extendFirst].
    exists r. split; [reflexivity | exact Hr].
Qed.

Lemma first_segment_prefix_dir (p d : string) (r : list string) :
  segments p = d :: r -> r <> [] -> String.prefix (d ++ "/") p = true.
Proof.
  revert d; induction p as [|c p IH]; intros d E Hr.
  - cbn in E. injection E as _ <-. now contradiction Hr.
  - cbn [segments] in E. destruct (Ascii.eqb c "/") eqn:Hc.
    + apply Ascii.eqb_eq in Hc as ->. injection E as <- _.
      cbn [append]. rewrite prefix_cons, Ascii.eqb_refl. apply prefix_nil.
    + destruct (segments_cons p) as (x & r' & E').
      rewrite E' in E. cbn [extendFirst] in E. injection E as <- <-.
      cbn [append]. rewrite prefix_cons, Ascii.eqb_refl.
      apply (IH x E' Hr).
Qed.

Lemma In_removelast_cons {A} (d x : A) (r : list A) :
  In d (removelast (x :: r)) <-> (d = x /\ r <> []) \/ In d (removelast r).
Proof.
  destruct r as [|y r]; cbn [removelast].
  - split; [intros [] | intros [[_ H] | []]; now contradiction H].
  - cbn [In]. split.
    + intros [<- | H]; [left; split; [reflexivity | discriminate] | right; exact H].
    + intros [[-> _] | H]; [left; reflexivity | right; exact H].
Qed.

Lemma includes_cons (c : ascii) (s p : string) :
  includes (String c s) p = String.prefix p (String c s) || includes s p.
Proof. reflexivity. Qed.

(** A path that holds [/d/] has [d] among its inner segments. *)
Lemma includes_dir_inner_segment (d p : string) :
  hasChar "/" d = false ->
  includes p ("/" ++ d ++ "/") = true ->
  In d (removelast (tl (segments p))).
Proof.
  intros Hd. induction p as [|c p IH]; intros H.
  - cbn in H. discriminate.
  - rewrite includes_cons in H. apply orb_true_iff in H as [H | H].
    + cbn [append] in H. rewrite prefix_cons in H.
      apply andb_true_iff in H as [Hc Hp]. apply Ascii.eqb_eq in Hc as <-.
      destruct (prefix_dir_first_segment d p Hd Hp) as (r & E & Hr).
      cbn [segments]. rewrite Ascii.eqb_refl, E. cbn [tl].
      apply In_removelast_cons. left. split; [reflexivity | exact Hr].
    + specialize (IH H). cbn [segments].
      destruct (segments_cons p) as (x & r & E). rewrite E in *. cbn [tl] in IH.
      destruct (Ascii.eqb c "/"); cbn [extendFirst tl].
      * apply In_removelast_cons. right. exact IH.
      * exact IH.
Qed.

Lemma inner_segment_includes_dir (d p : string) :
  In d (removelast (tl (segments p))) ->
  includes p ("/" ++ d ++ "/") = true.
Proof.
  induction p as [|c p IH]; intros H.
  - cbn in H. contradiction.
  - rewrite includes_cons. apply orb_true_iff.
    cbn [segments] in H. destruct (segments_cons p) as (x & r & E).
    destruct (Ascii.eqb c "/") eqn:Hc.
    + apply Ascii.eqb_eq in Hc as ->. cbn [tl] in H. rewrite E in H.
      apply In_removelast_cons in H as [[-> Hr] | H].
      * left. cbn [append]. rewrite prefix_cons, Ascii.eqb_refl.
        apply (first_segment_prefix_dir p x r E Hr).
      * right. apply IH. rewrite E. exact H.
    + right. apply IH. rewrite E in *. exact H.
Qed.

(** The directory check of the loop, for one name: the name is a segment
    of the path other than the last. *)
Lemma dir_check_iff (d p : string) :
  hasChar "/" d = false ->
  includes p ("/" ++ d ++ "/") || startsWith p (d ++ "/") = true
  <-> In d (removelast (segments p)).
Proof.
  intros Hd. destruct (segments_cons p) as (x & r & E).
  rewrite E, In_removelast_cons. unfold startsWith. rewrite orb_true_iff. split.
  - intros [H | H].
    + right. apply (includes_dir_inner_segment d p Hd) in H.
      now rewrite E in H.
    + left. destruct (prefix_dir_first_segment d p Hd H) as (r' & E' & Hr).
      rewrite E in E'. injection E' as -> ->. split; [reflexivity | exact Hr].
  - intros [[-> Hr] | H].
    + right. apply (first_segment_prefix_dir p x r E Hr).
    + left. apply inner_segment_includes_dir. now rewrite E.
Qed.

Lemma In_removelast {A} (d : A) (l : list A) : In d (removelast l) -> In d l.
Proof.
  induction l as [|x l IH]; [intros []|].
  intros H. apply In_removelast_cons in H as [[-> _] | H].
  - left; reflexivity.
  - right; auto.
Qed.

Lemma In_last_or_before {A} (d e : A) (l : list A) :
  In d l -> In d (removelast l) \/ d = last l e.
Proof.
  intros H. destruct l as [|x l]; [contradiction|].
  assert (N : x :: l <> []) by discriminate.
  rewrite (app_removelast_last e N) in H.
  apply in_app_or in H as [H | [<- | []]]; [left; exact H | right; reflexivity].
Qed.

Lemma segments_without_slash (s : string) :
  hasChar "/" s = false -> segments s = [s].
Proof.
  induction s as [|c s IH]; intros H; [reflexivity|].
  cbn [hasChar] in H. apply orb_false_iff in H as [Hc Hs].
  cbn [segments]. rewrite Hc, (IH Hs). reflexivity.
Qed.

Lemma endsWith_refl (s : string) : endsWith s s = true.
Proof. destruct s; cbn; [reflexivity | now rewrite Ascii.eqb_refl, String.eqb_refl]. Qed.

Lemma endsWith_cons (c : ascii) (s e : string) :
  endsWith (String c s) e = String.eqb (String c s) e || endsWith s e.
Proof. reflexivity. Qed.

(** An ending without [/] lies within the last segment. *)
Lemma endsWith_last_segment (e s : string) :
  hasChar "/" e = false ->
  endsWith s e = true ->
  endsWith (last (segments s) "") e = true.
Proof.
  intros He. induction s as [|c s IH]; intros H.
  - exact H.
  - rewrite endsWith_cons in H. apply orb_true_iff in H as [H | H].
    + apply String.eqb_eq in H. subst e.
      rewrite (segments_without_slash _ He). apply endsWith_refl.
    + specialize (IH H). cbn [segments].
      destruct (segments_cons s) as (x & r & E). rewrite E in *.
      destruct (Ascii.eqb c "/"); cbn [extendFirst].
      * exact IH.
      * destruct r as [|y r]; [|exact IH].
        cbn [last] in *. rewrite endsWith_cons, IH. apply orb_true_r.
Qed.

Lemma lower_ascii_slash (c : ascii) :
  Ascii.eqb (lower_ascii c) "/" = Ascii.eqb c "/".
Proof. destruct c as [[] [] [] [] [] [] [] []]; reflexivity. Qed.

Lemma segments_toLowerCase (p : string) :
  segments (toLowerCase p) = map toLowerCase (segments p).
Proof.
  induction p as [|c p IH]; [reflexivity|].
  cbn [toLowerCase segments]. rewrite lower_ascii_slash, IH.
  destruct (Ascii.eqb c "/"); [reflexivity|].
  destruct (segments p); reflexivity.
Qed.

Lemma last_map_lower (l : list string) :
  last (map toLowerCase l) "" = toLowerCase (last l "").
Proof.
  induction l as [|x l IH]; [reflexivity|].
  destruct l as [|y l]; [reflexivity|]. exact IH.
Qed.

Section PathRule.
Variables ignored allowed : list string.
Hypothesis Hsep : separable ignored allowed = true.

Lemma separable_dir (d : string) : In d ignored -> hasChar "/" d = false.
Proof.
  intros H. unfold separable in Hsep.
  apply andb_true_iff in Hsep as [H1 _]. apply andb_true_iff in H1 as [H1 _].
  rewrite forallb_forall in H1. apply negb_true_iff. now apply H1.
Qed.

Lemma separable_ext (e : string) : In e allowed -> hasChar "/" e = false.
Proof.
  intros H. unfold separable in Hsep.
  apply andb_true_iff in Hsep as [H1 _]. apply andb_true_iff in H1 as [_ H1].
  rewrite forallb_forall in H1. apply negb_true_iff. now apply H1.
Qed.

Lemma separable_name (d e : string) :
  In d ignored -> In e allowed -> endsWith (toLowerCase d) e = false.
Proof.
  intros Hd He. unfold separable in Hsep.
  apply andb_true_iff in Hsep as [_ H1].
  rewrite forallb_forall in H1. specialize (H1 d Hd).
  rewrite forallb_forall in H1. apply negb_true_iff. now apply H1.
Qed.

Lemma isAllowed_false_iff (p : string) :
  Assembler.isAllowed allowed p = false
  <-> ~ (exists ext, In ext allowed /\ endsWith (toLowerCase p) ext = true).
Proof.
  unfold Assembler.isAllowed. rewrite <- not_true_iff_false, existsb_exists.
  reflexivity.
Qed.

(** A path whose last segment is an ignored name has no allowed
    extension. *)
Lemma ignored_name_not_allowed (d p : string) :
  In d ignored -> d = last (segments p) "" ->
  Assembler.isAllowed allowed p = false.
Proof.
  intros Hd E. apply isAllowed_false_iff. intros (ext & He & H).
  apply (endsWith_last_segment ext _ (separable_ext ext He)) in H.
  rewrite segments_toLowerCase, last_map_lower, <- E in H.
  now rewrite (separable_name d ext Hd He) in H.
Qed.

(** The two [continue] checks of the loop are the path rule of the
    specification. *)
Lemma path_checks_iff (p : string) :
  Assembler.inIgnoredDir ignored p = true \/ Assembler.isAllowed allowed p = false
  <-> excludedByPath ignored allowed p.
Proof.
  unfold excludedByPath, hasSegment. rewrite <- isAllowed_false_iff.
  unfold Assembler.inIgnoredDir. rewrite existsb_exists. split.
  - intros [(d & Hd & H) | H]; [left | right; exact H].
    exists d. split; [exact Hd|].
    apply In_removelast. apply dir_check_iff; [now apply separable_dir | exact H].
  - intros [(d & Hd & H) | H]; [| right; exact H].
    destruct (In_last_or_before d "" _ H) as [H' | H'].
    + left. exists d. split; [exact Hd|].
      apply dir_check_iff; [now apply separable_dir | exact H'].
    + right. now apply (ignored_name_not_allowed d p).
Qed.

Lemma accepted_false_iff (f : File) :
  accepted ignored allowed f = false
  <-> excludedByPath ignored allowed (Assembler.pathOf f)
      \/ (exists e, readAsText f = Rejected e).
Proof.
  rewrite <- path_checks_iff. unfold accepted, readable.
  destruct (Assembler.inIgnoredDir ignored (Assembler.pathOf f));
    destruct (Assembler.isAllowed allowed (Assembler.pathOf f));
    destruct (readAsText f) as [c | e]; cbn; split; intros H; auto;
    try discriminate.
  - destruct H as [[H | H] | (e & H)]; discriminate.
  - right. now exists e.
Qed.

Lemma loopBody_fixed_iff (acc : list FileItem * string) (f : File) :
  Assembler.loopBody ignored allowed acc f = acc
  <-> accepted ignored allowed f = false.
Proof.
  split.
  - intros H. destruct (accepted ignored allowed f) eqn:E; [|reflexivity].
    rewrite (loopBody_accepted _ _ _ _ E) in H.
    apply (f_equal (fun a => length (fst a))) in H. cbn [fst] in H.
    rewrite length_app in H. cbn in H. lia.
  - apply loopBody_dropped.
Qed.
End PathRule.

(** C4 (amended).  One iteration of the loop leaves the accumulators as
    they are (the item is dropped) exactly when a name of [IGNORED_DIRS] is
    a segment of the item's path, or the lowercased path ends with no
    extension of [ALLOWED_EXTENSIONS], or reading the item fails; this holds
    for the lists of both revisions.  In Scenario A the manifest is
    [src/a.ts] and [README.md], each of size 1, and [node_modules/b.js] is
    stopped by the directory check. *)
Theorem assembler_drop_rule :
  (forall (acc : list FileItem * string) (f : File),
      Assembler.loopBody App.IGNORED_DIRS App.ALLOWED_EXTENSIONS acc f = acc
      <-> excludedByPath App.IGNORED_DIRS App.ALLOWED_EXTENSIONS (Assembler.pathOf f)
          \/ (exists e, readAsText f = Rejected e))
  /\ (forall (acc : list FileItem * string) (f : File),
      Assembler.loopBody AppV2.IGNORED_DIRS AppV2.ALLOWED_EXTENSIONS acc f = acc
      <-> excludedByPath AppV2.IGNORED_DIRS AppV2.ALLOWED_EXTENSIONS (Assembler.pathOf f)
          \/ (exists e, readAsText f = Rejected e))
  /\ fst (Assembler.assemble ["node_modules"] [".ts"; ".md"]
            [Examples.a_ts; Examples.b_js; Examples.readme])
     = [mkFileItem "src/a.ts" 1; mkFileItem "README.md" 1]
  /\ Assembler.inIgnoredDir ["node_modules"] (Assembler.pathOf Examples.b_js) = true
  /\ fst (App.assemble [Examples.a_ts; Examples.b_js; Examples.readme])
     = [mkFileItem "src/a.ts" 1; mkFileItem "README.md" 1].
Proof.
  split; [|split].
  - intros acc f. rewrite loopBody_fixed_iff. now apply accepted_false_iff.
  - intros acc f. rewrite loopBody_fixed_iff. now apply accepted_false_iff.
  - repeat split; vm_compute; reflexivity.
Qed.

(** C4 as stated fails where a read fails: [a.ts] passes both path checks,
    its read is rejected, and the item is dropped all the same. *)
Lemma unreadable_item_is_dropped :
  readAsText Examples.unreadable = Rejected OtherValue
  /\ Assembler.pathOf Examples.unreadable = "a.ts"
  /\ ~ excludedByPath App.IGNORED_DIRS App.ALLOWED_EXTENSIONS "a.ts"
  /\ App.assemble [Examples.unreadable] = ([], "")
  /\ Assembler.loopBody App.IGNORED_DIRS App.ALLOWED_EXTENSIONS ([], "")
       Examples.unreadable = ([], "").
Proof.
  split; [reflexivity | split; [reflexivity | split; [| split; reflexivity]]].
  intros H.
  apply (path_checks_iff App.IGNORED_DIRS App.ALLOWED_EXTENSIONS eq_refl) in H.
  destruct H as [H | H]; vm_compute in H; discriminate.
Qed.

(** ** Reading the corpus back *)

Lemma hasChar_append (c : ascii) (a b : string) :
  hasChar c (a ++ b) = hasChar c a || hasChar c b.
Proof.
  induction a as [|x a IH]; cbn [append hasChar]; [reflexivity|].
  now rewrite IH, orb_assoc.
Qed.


(** A text whose last character does not occur in [y] is a prefix of
    [x ++ y] only if it is a prefix of [x]. *)
Lemma prefix_not_into (m0 : string) (c : ascii) (x y : string) :
  hasChar c y = false ->
  String.prefix (m0 ++ String c "") (x ++ y) = true ->
  String.prefix (m0 ++ String c "") x = true.
Proof.
  intros Hy. revert m0; induction x as [|a x IH]; intros m0 H.
  - cbn [append] in H. apply prefix_inv in H as [r ->].
    rewrite !hasChar_append in Hy. cbn [hasChar] in Hy.
    rewrite Ascii.eqb_refl in Hy. rewrite orb_true_r in Hy. discriminate.
  - destruct m0 as [|b m0]; cbn [append] in *; rewrite prefix_cons in *.
    + apply andb_true_iff in H as [-> _]. now rewrite prefix_nil.
    + apply andb_true_iff in H as [-> H]. now rewrite (IH m0 H).
Qed.



Lemma startsInside_before_dashes (x : string) :
  includes x marker = false -> startsInside x " ---" = false.
Proof.
  induction x as [|a x IH]; [reflexivity|].
  rewrite includes_cons. intros H. apply orb_false_iff in H as [Hp Hi].
  cbn [startsInside]. rewrite (IH Hi), orb_false_r.
  destruct (String.prefix marker (String a x ++ " ---")) eqn:E; [|reflexivity].
  apply (prefix_not_into "--- START OF FIL" "E" (String a x) " ---" eq_refl) in E.
  change ("--- START OF FIL" ++ "E") with marker in E. congruence.
Qed.


















(* ===================================================================== *)
(** * Further properties of the code                                      *)
(* ===================================================================== *)

(** ** The assembler *)

Lemma flatten_app (l1 l2 : list string) :
  flatten (l1 ++ l2)%list = flatten l1 ++ flatten l2.
Proof.
  induction l1 as [|x l1 IH]; cbn [app flatten]; [reflexivity|].
  now rewrite IH, append_associative.
Qed.

(** X1.  Assembling a selection made of two parts gives the manifest of
    the first part followed by that of the second, and likewise the text:
    what an item contributes does not depend on the items around it. *)
Theorem assemble_of_two_parts :
  forall (ignored allowed : list string) (first second : list File),
    Assembler.assemble ignored allowed (first ++ second)%list =
      ((fst (Assembler.assemble ignored allowed first)
        ++ fst (Assembler.assemble ignored allowed second))%list,
       snd (Assembler.assemble ignored allowed first)
       ++ snd (Assembler.assemble ignored allowed second)).
Proof.
  intros ignored allowed first second.
  unfold Assembler.assemble at 1. rewrite fold_left_app.
  fold (Assembler.assemble ignored allowed first).
  rewrite loop_from, !assemble_spec. reflexivity.
Qed.

Lemma accepted_true_inv (ignored allowed : list string) (f : File) :
  accepted ignored allowed f = true ->
  Assembler.inIgnoredDir ignored (Assembler.pathOf f) = false
  /\ Assembler.isAllowed allowed (Assembler.pathOf f) = true
  /\ readAsText f = Fulfilled (contentOf f).
Proof.
  unfold accepted, readable, contentOf. intros H.
  apply andb_true_iff in H as [H Hr]. apply andb_true_iff in H as [Hi Ha].
  apply negb_true_iff in Hi.
  destruct (readAsText f); [auto | discriminate].
Qed.

(** X2.  Every entry of the manifest stands for a selected file that is
    outside the ignored directories, has an allowed extension and was read;
    the entry carries that file's path and size, and the file's block is
    part of the text.  The manifest is never longer than the selection. *)
Theorem manifest_entry_origin :
  forall (ignored allowed : list string) (files : list File) (item : FileItem),
    In item (fst (Assembler.assemble ignored allowed files)) ->
    (exists f content pre post,
        In f files
        /\ path item = Assembler.pathOf f
        /\ size item = fsize f
        /\ Assembler.inIgnoredDir ignored (path item) = false
        /\ Assembler.isAllowed allowed (path item) = true
        /\ readAsText f = Fulfilled content
        /\ snd (Assembler.assemble ignored allowed files)
           = pre ++ Assembler.fileBlock (path item) content ++ post)
    /\ length (fst (Assembler.assemble ignored allowed files)) <= length files.
Proof.
  intros ignored allowed files item H. rewrite assemble_spec in *.
  cbn [fst snd] in *. unfold manifest, corpusText, acceptedItems in *. split.
  - apply in_map_iff in H as (f & <- & Hf).
    destruct (in_split _ _ Hf) as (l1 & l2 & E).
    apply filter_In in Hf as [Hin Hacc].
    destruct (accepted_true_inv _ _ _ Hacc) as (Hi & Ha & Hr).
    exists f, (contentOf f), (flatten (map block l1)), (flatten (map block l2)).
    cbn [path size]. repeat split; auto.
    rewrite E, map_app, flatten_app. reflexivity.
  - rewrite length_map. apply filter_length_le.
Qed.

Lemma manifest_entry_origin_witness :
  let files := [Examples.a_ts; Examples.b_js; Examples.readme] in
  In (mkFileItem "README.md" 1) (fst (App.assemble files))
  /\ Assembler.inIgnoredDir App.IGNORED_DIRS "README.md" = false
  /\ length (fst (App.assemble files)) <= 3.
Proof.
  assert (H : In (mkFileItem "README.md" 1)
                 (fst (App.assemble [Examples.a_ts; Examples.b_js; Examples.readme])))
    by (right; left; reflexivity).
  split; [exact H|].
  destruct (manifest_entry_origin App.IGNORED_DIRS App.ALLOWED_EXTENSIONS
              [Examples.a_ts; Examples.b_js; Examples.readme]
              (mkFileItem "README.md" 1) H)
    as [(f & content & pre & post & _ & _ & _ & Hi & _) Hlen].
  split; [exact Hi | exact Hlen].
Defined.

(** X3.  For names without [/], the directory check holds of a path
    exactly when one of the names is a segment of the path other than its
    last: the check looks at directories, never at the file name. *)
Theorem directory_check_is_inner_segment :
  forall (ignored : list string) (p : string),
    (forall d, In d ignored -> hasChar "/" d = false) ->
    (Assembler.inIgnoredDir ignored p = true
     <-> exists d, In d ignored /\ In d (removelast (segments p))).
Proof.
  intros ignored p Hd. unfold Assembler.inIgnoredDir. rewrite existsb_exists.
  split; intros (d & Hin & H); exists d; (split; [exact Hin|]);
    now apply (dir_check_iff d p (Hd d Hin)).
Qed.

Lemma directory_check_is_inner_segment_witness :
  (forall d, In d App.IGNORED_DIRS -> hasChar "/" d = false)
  /\ (Assembler.inIgnoredDir App.IGNORED_DIRS "src/dist/x.ts" = true
      <-> exists d, In d App.IGNORED_DIRS
                    /\ In d (removelast (segments "src/dist/x.ts"))).
Proof.
  assert (H : forall d, In d App.IGNORED_DIRS -> hasChar "/" d = false).
  { intros d Hd. cbn in Hd.
    repeat (destruct Hd as [<- | Hd]; [reflexivity|]). contradiction. }
  split; [exact H|].
  exact (directory_check_is_inner_segment App.IGNORED_DIRS "src/dist/x.ts" H).
Defined.

Lemma trim_of_dash (s : string) : trim (String "-" s) <> "".
Proof. unfold trim. cbn. discriminate. Qed.

Lemma corpusText_blank (ignored allowed : list string) (files : list File) :
  manifest ignored allowed files = []
  <-> trim (corpusText ignored allowed files) = "".
Proof.
  unfold manifest, corpusText. destruct (acceptedItems ignored allowed files) as [|f l].
  - cbn. split; reflexivity.
  - cbn [map flatten]. split; [discriminate|].
    intros H. unfold block in H. cbn [append] in H.
    now apply trim_of_dash in H.
Qed.

(** ** Loading files and starting a generation *)

Lemma textOr_nonempty (t : option string) (fallback : string) :
  fallback <> "" -> GeminiService.textOr t fallback <> "".
Proof.
  intros H. destruct t as [[|c s]|]; cbn; [exact H | discriminate | exact H].
Qed.

Section Generation.
Context {W : Type}.
Variable answer : forall R, Effect R -> W -> R * W.

Lemma processFiles_run (w : W) (m : App.Model) (files : list File) :
  run answer (App.processFiles files) w m =
    mkRun (App.setIsReading false
             (App.setCode (snd (App.assemble files))
                (App.setFileList (fst (App.assemble files))
                   (App.setIsReading true m))))
          w (Returned tt) [].
Proof.
  unfold App.processFiles. destruct (App.assemble files) as [v c]. reflexivity.
Qed.

(** X4.  [processFiles] writes the manifest, the corpus and the reading
    flag and nothing else; afterwards the manifest is empty exactly when the
    corpus is blank, so a generate button that is enabled leads to a corpus
    that passes the handler's own test. *)
Theorem processFiles_guards_agree :
  forall (w : W) (m : App.Model) (files : list File),
    let r := run answer (App.processFiles files) w m in
    (App.fileList (final r) = [] <-> trim (App.code (final r)) = "")
    /\ (App.generateDisabled (final r) = false -> trim (App.code (final r)) <> "")
    /\ App.isReading (final r) = false
    /\ App.appState (final r) = App.appState m
    /\ App.docResult (final r) = App.docResult m
    /\ App.chatSessionRef (final r) = App.chatSessionRef m
    /\ App.gemini_api_key (final r) = App.gemini_api_key m
    /\ issued r = [].
Proof.
  intros w m files r. subst r. rewrite processFiles_run. cbn.
  unfold App.assemble. rewrite assemble_spec. cbn [fst snd].
  assert (E := corpusText_blank App.IGNORED_DIRS App.ALLOWED_EXTENSIONS files).
  split; [exact E|]. split; [|repeat split; reflexivity].
  unfold App.generateDisabled. cbn. intros H Hc. apply E in Hc.
  rewrite Hc in H. cbn in H. discriminate.
Qed.

(** X5.  With a blank corpus [handleGenerate] returns at once, before it
    looks for the credential: nothing is written, the key modal stays as it
    is even when no key is stored, and nothing is requested. *)
Theorem handleGenerate_blank_corpus :
  forall (w : W) (m : App.Model),
    trim (App.code m) = "" ->
    run answer (App.handleGenerate m) w m = mkRun m w (Returned tt) []
    /\ start (App.handleGenerate m) m = (m, Finished (Returned tt)).
Proof.
  intros w m H. unfold App.handleGenerate. rewrite H. split; reflexivity.
Qed.

(** X6.  [generateDocFromCode] with a key sends exactly one request and
    never retries: a rejection is rethrown as it is, and a fulfilled request
    gives the text of the response, or the placeholder when the response has
    no text, so that the document returned is never empty; component state
    is not touched. *)
Theorem generateDocFromCode_single_request :
  forall (S : Type) (w w' : W) (st : S) (apiKey corpus : string)
         (r : Settled GenerateContentResponse),
    apiKey <> "" ->
    answer _ (GeminiService.docRequest apiKey corpus) w = (r, w') ->
    run answer (GeminiService.generateDocFromCode apiKey corpus) w st =
      mkRun st w'
        match r with
        | Fulfilled response =>
            Returned (GeminiService.textOr (response_text response)
                                           "No response generated.")
        | Rejected e => Uncaught e
        end
        [call (GeminiService.docRequest apiKey corpus)]
    /\ (forall response, r = Fulfilled response ->
          GeminiService.textOr (response_text response) "No response generated."
          <> "").
Proof.
  intros S w w' st apiKey corpus r Hk Ha.
  unfold GeminiService.generateDocFromCode.
  apply falsy_false_iff in Hk. rewrite Hk. cbn. rewrite Ha.
  split; [destruct r; reflexivity|].
  intros response _. apply textOr_nonempty. discriminate.
Qed.

(** What [handleGenerate] leaves when both of its tests pass. *)
Lemma handleGenerate_run (w : W) (m : App.Model) (apiKey : string) :
  trim (App.code m) <> "" ->
  App.presentKey m = Some apiKey ->
  let entered :=
    App.setActiveTab doc
      (App.setChatSession None
         (App.setDocResult "" (App.setAppState GENERATING m))) in
  let docCall := GeminiService.docRequest apiKey (App.code m) in
  run answer (App.handleGenerate m) w m =
    match answer _ docCall w with
    | (Rejected e, w1) =>
        mkRun (App.setAppState ERROR
                 (App.setDocResult (App.errorDocument e) entered))
              w1 (Returned tt) [call docCall]
    | (Fulfilled response, w1) =>
        let markdown :=
          GeminiService.textOr (response_text response) "No response generated." in
        let chatCall :=
          ChatsCreate apiKey (GeminiService.seedHistory (App.code m) markdown) in
        match answer _ chatCall w1 with
        | (Fulfilled session, w2) =>
            mkRun (App.setAppState SUCCESS
                     (App.setChatSession (Some session)
                        (App.setDocResult markdown entered)))
                  w2 (Returned tt) [call docCall; call chatCall]
        | (Rejected _, w2) =>
            mkRun (App.setAppState SUCCESS (App.setDocResult markdown entered))
                  w2 (Returned tt) [call docCall; call chatCall]
        end
    end.
Proof.
  intros Hc Hk entered docCall. subst entered docCall.
  unfold App.handleGenerate. apply falsy_false_iff in Hc. rewrite Hc, Hk.
  assert (Hne : falsy apiKey = false).
  { unfold App.presentKey in Hk. destruct (App.gemini_api_key m) as [k|]; [|discriminate].
    destruct (falsy k) eqn:E; [discriminate|]. now injection Hk as <-. }
  unfold GeminiService.generateDocFromCode, GeminiService.createChatSession.
  rewrite Hne. cbn.
  destruct (answer _ (GeminiService.docRequest apiKey (App.code m)) w) as [[response|e] w1];
    cbn; [|reflexivity].
  destruct (answer _ (ChatsCreate apiKey _) w1) as [[session|e] w2]; reflexivity.
Qed.

(** X7.  When the generation request and the creation of the session both
    succeed, [handleGenerate] ends in [SUCCESS] on the document tab with the
    generated text in the document slot and the new session in the ref; it
    has issued the generation request and then one session request, seeded
    with the same corpus and with exactly the text now in the document
    slot. *)
Theorem handleGenerate_success :
  forall (w w1 w2 : W) (m : App.Model) (apiKey : string)
         (response : GenerateContentResponse) (session : Chat),
    trim (App.code m) <> "" ->
    App.gemini_api_key m = Some apiKey -> apiKey <> "" ->
    let markdown :=
      GeminiService.textOr (response_text response) "No response generated." in
    let chatCall :=
      ChatsCreate apiKey (GeminiService.seedHistory (App.code m) markdown) in
    answer _ (GeminiService.docRequest apiKey (App.code m)) w = (Fulfilled response, w1) ->
    answer _ chatCall w1 = (Fulfilled session, w2) ->
    let r := run answer (App.handleGenerate m) w m in
    App.appState (final r) = SUCCESS
    /\ App.docResult (final r) = markdown
    /\ App.chatSessionRef (final r) = Some session
    /\ App.activeTab (final r) = doc
    /\ issued r =
         [ call (GeminiService.docRequest apiKey (App.code m));
           call (ChatsCreate apiKey
                   (GeminiService.seedHistory (App.code (final r))
                                              (App.docResult (final r)))) ]
    /\ completion r = Returned tt.
Proof.
  intros w w1 w2 m apiKey response session Hc Hk Hne markdown chatCall Hd Hs r.
  subst r. rewrite (handleGenerate_run w m apiKey Hc (presentKey_present _ _ Hk Hne)).
  cbv zeta. rewrite Hd. subst chatCall markdown. rewrite Hs. cbn.
  repeat split; reflexivity.
Qed.

(** X8.  Whatever the environment answers, [handleGenerate] returns
    normally, keeps corpus, manifest and stored key, and ends in one of four
    ways: nothing done (blank corpus); only the key modal opened (no key);
    [ERROR] after the one generation request, with the error document and no
    session; or [SUCCESS] after the generation request and one session
    request, with a non-empty document. *)
Theorem handleGenerate_outcomes :
  forall (w : W) (m : App.Model),
    let r := run answer (App.handleGenerate m) w m in
    completion r = Returned tt
    /\ App.code (final r) = App.code m
    /\ App.fileList (final r) = App.fileList m
    /\ App.gemini_api_key (final r) = App.gemini_api_key m
    /\ ( (trim (App.code m) = "" /\ final r = m /\ issued r = [])
         \/ (App.presentKey m = None
             /\ final r = App.setIsKeyModalOpen true m /\ issued r = [])
         \/ (exists apiKey e,
                issued r = [call (GeminiService.docRequest apiKey (App.code m))]
                /\ App.appState (final r) = ERROR
                /\ App.docResult (final r) = App.errorDocument e
                /\ App.chatSessionRef (final r) = None)
         \/ (exists apiKey,
                issued r =
                  [ call (GeminiService.docRequest apiKey (App.code m));
                    call (ChatsCreate apiKey
                            (GeminiService.seedHistory (App.code m)
                                                       (App.docResult (final r)))) ]
                /\ App.appState (final r) = SUCCESS
                /\ App.docResult (final r) <> "") ).
Proof.
  intros w m r. subst r.
  destruct (string_dec (trim (App.code m)) "") as [Hc | Hc].
  - unfold App.handleGenerate. rewrite Hc. cbn.
    repeat split; auto.
  - destruct (App.presentKey m) as [apiKey|] eqn:Hk.
    + rewrite (handleGenerate_run w m apiKey Hc Hk). cbv zeta.
      destruct (answer _ (GeminiService.docRequest apiKey (App.code m)) w)
        as [[response|e] w1].
      * destruct (answer _ (ChatsCreate apiKey _) w1) as [[session|e] w2]; cbn;
          (repeat split; try reflexivity);
          right; right; right; exists apiKey;
          (repeat split; try reflexivity);
          apply textOr_nonempty; discriminate.
      * cbn. repeat split; try reflexivity.
        right; right; left. exists apiKey, e. repeat split; reflexivity.
    + unfold App.handleGenerate. apply falsy_false_iff in Hc. rewrite Hc, Hk. cbn.
      repeat split; auto.
Qed.

End Generation.

(** ** The stored key *)

Lemma falsy_true_iff (s : string) : falsy s = true <-> s = "".
Proof. destruct s; cbn; split; intros; congruence. Qed.

Lemma slice_append (w rest : string) : slice (String.length w) (w ++ rest) = rest.
Proof. induction w as [|c w IH]; [now destruct rest | exact IH]. Qed.

Lemma whiteSpace_nonempty (w : string) : In w whiteSpace -> w <> "".
Proof.
  assert (H : forallb (fun w => negb (falsy w)) whiteSpace = true) by reflexivity.
  rewrite forallb_forall in H. intros Hw E. specialize (H w Hw).
  rewrite E in H. discriminate.
Qed.

(** No white-space character begins with another one. *)
Lemma whiteSpace_prefix_free (a b : string) :
  In a whiteSpace -> In b whiteSpace -> String.prefix a b = true -> a = b.
Proof.
  assert (H : forallb (fun a =>
                forallb (fun b => implb (String.prefix a b) (String.eqb a b))
                        whiteSpace) whiteSpace = true) by (vm_compute; reflexivity).
  rewrite forallb_forall in H. intros Ha Hb Hp. specialize (H a Ha).
  rewrite forallb_forall in H. specialize (H b Hb).
  rewrite Hp in H. now apply String.eqb_eq.
Qed.

Lemma prefixes_comparable (a b r : string) :
  String.prefix a (b ++ r) = true ->
  String.prefix a b = true \/ String.prefix b a = true.
Proof.
  revert b; induction a as [|x a IH]; intros b H.
  - left. apply prefix_nil.
  - destruct b as [|y b]; [right; reflexivity|].
    cbn [append] in H. rewrite prefix_cons in *.
    apply andb_true_iff in H as [Hx H]. rewrite Hx. cbn [andb].
    apply Ascii.eqb_eq in Hx as ->. rewrite prefix_cons, Ascii.eqb_refl.
    exact (IH b H).
Qed.

Lemma afterWhiteSpace_inv (s rest : string) :
  afterWhiteSpace s = Some rest ->
  exists w, In w whiteSpace /\ s = w ++ rest.
Proof.
  unfold afterWhiteSpace.
  destruct (find (fun w => String.prefix w s) whiteSpace) as [w|] eqn:F;
    [|discriminate].
  intros [= <-]. apply find_some in F as [Hw Hp].
  exists w. split; [exact Hw|].
  destruct (prefix_inv _ _ Hp) as [r ->]. now rewrite slice_append.
Qed.

Lemma afterWhiteSpace_of_character (w rest : string) :
  In w whiteSpace -> afterWhiteSpace (w ++ rest) = Some rest.
Proof.
  intros Hw. unfold afterWhiteSpace.
  destruct (find (fun v => String.prefix v (w ++ rest)) whiteSpace) as [v|] eqn:F.
  - apply find_some in F as [Hv Hp].
    assert (E : v = w).
    { destruct (prefixes_comparable _ _ _ Hp) as [H | H].
      - now apply whiteSpace_prefix_free.
      - symmetry. now apply whiteSpace_prefix_free. }
    subst v. now rewrite slice_append.
  - apply (find_none _ _ F) in Hw. now rewrite prefix_append in Hw.
Qed.

Lemma afterWhiteSpace_append (s rest tail : string) :
  afterWhiteSpace s = Some rest ->
  afterWhiteSpace (s ++ tail) = Some (rest ++ tail).
Proof.
  intros H. apply afterWhiteSpace_inv in H as (w & Hw & ->).
  rewrite append_associative. now apply afterWhiteSpace_of_character.
Qed.

Lemma afterWhiteSpace_shorter (s rest : string) :
  afterWhiteSpace s = Some rest -> String.length rest < String.length s.
Proof.
  intros H. apply afterWhiteSpace_inv in H as (w & Hw & ->).
  rewrite length_append. apply whiteSpace_nonempty in Hw.
  destruct w; [contradiction | cbn; lia].
Qed.

Lemma trimStartWithin_enough (fuel fuel' : nat) (s : string) :
  String.length s <= fuel -> String.length s <= fuel' ->
  trimStartWithin fuel s = trimStartWithin fuel' s.
Proof.
  revert fuel' s; induction fuel as [|fuel IH]; intros fuel' s H H'.
  - destruct s; [|cbn in H; lia]. destruct fuel'; reflexivity.
  - destruct fuel' as [|fuel'].
    + destruct s; [reflexivity | cbn in H'; lia].
    + cbn [trimStartWithin]. destruct (afterWhiteSpace s) as [rest|] eqn:E;
        [|reflexivity].
      apply afterWhiteSpace_shorter in E. apply IH; lia.
Qed.

(** [trimStart] takes one white-space character off and goes on. *)
Lemma trimStart_step (s : string) :
  trimStart s =
    match afterWhiteSpace s with
    | Some rest => trimStart rest
    | None => s
    end.
Proof.
  unfold trimStart. destruct s as [|c s]; [reflexivity|].
  cbn [String.length trimStartWithin].
  destruct (afterWhiteSpace (String c s)) as [rest|] eqn:E; [|reflexivity].
  apply afterWhiteSpace_shorter in E. cbn [String.length] in E.
  apply trimStartWithin_enough; lia.
Qed.

(** What [trimStart] returns does not begin with white space. *)
Lemma trimStart_clean (s : string) : afterWhiteSpace (trimStart s) = None.
Proof.
  remember (String.length s) as n eqn:Hn.
  assert (H : String.length s <= n) by lia. clear Hn.
  revert s H; induction n as [|n IH]; intros s H.
  - destruct s; [reflexivity | cbn in H; lia].
  - rewrite trimStart_step. destruct (afterWhiteSpace s) as [rest|] eqn:E;
      [|exact E].
    apply IH. apply afterWhiteSpace_shorter in E. lia.
Qed.

Lemma trimStart_idempotent (s : string) : trimStart (trimStart s) = trimStart s.
Proof. rewrite (trimStart_step (trimStart s)). now rewrite trimStart_clean. Qed.

(** White space followed by white space is white space. *)
Lemma blank_append (a b : string) :
  trimStart a = "" -> trimStart b = "" -> trimStart (a ++ b) = "".
Proof.
  remember (String.length a) as n eqn:Hn.
  assert (H : String.length a <= n) by lia. clear Hn.
  revert a H; induction n as [|n IH]; intros a H Ha Hb.
  - destruct a; [exact Hb | cbn in H; lia].
  - rewrite trimStart_step in Ha.
    destruct (afterWhiteSpace a) as [rest|] eqn:E.
    + rewrite trimStart_step, (afterWhiteSpace_append _ _ b E).
      apply IH; [|exact Ha | exact Hb].
      apply afterWhiteSpace_shorter in E. lia.
    + subst a. exact Hb.
Qed.

(** [trimEnd] cuts white space off the end, and nothing else. *)
Lemma trimEnd_cut (s : string) :
  exists tail, s = trimEnd s ++ tail /\ trimStart tail = "".
Proof.
  induction s as [|c s (tail & E & Ht)].
  - exists "". split; reflexivity.
  - cbn [trimEnd]. destruct (falsy (trimStart (String c s))) eqn:F.
    + exists (String c s). split; [reflexivity | now apply falsy_true_iff].
    + exists tail. split; [cbn [append]; now rewrite <- E | exact Ht].
Qed.

Lemma trimEnd_idempotent (s : string) : trimEnd (trimEnd s) = trimEnd s.
Proof.
  induction s as [|c s IH]; [reflexivity|].
  cbn [trimEnd]. destruct (falsy (trimStart (String c s))) eqn:F; [reflexivity|].
  cbn [trimEnd]. rewrite IH.
  destruct (falsy (trimStart (String c (trimEnd s)))) eqn:F'; [|reflexivity].
  exfalso. apply falsy_true_iff in F'.
  destruct (trimEnd_cut s) as (tail & E & Ht).
  assert (B := blank_append _ _ F' Ht). cbn [append] in B. rewrite <- E in B.
  rewrite B in F. discriminate.
Qed.

Lemma trimStart_of_trimEnd (t : string) :
  afterWhiteSpace t = None -> trimStart (trimEnd t) = trimEnd t.
Proof.
  intros H. rewrite trimStart_step.
  destruct (afterWhiteSpace (trimEnd t)) as [rest|] eqn:E; [|reflexivity].
  destruct (trimEnd_cut t) as (tail & Et & _).
  apply (afterWhiteSpace_append _ _ tail) in E. rewrite <- Et in E. congruence.
Qed.

(** Trimming what is trimmed changes nothing: a trimmed text has no white
    space at either end. *)
Lemma trim_idempotent (s : string) : trim (trim s) = trim s.
Proof.
  unfold trim.
  rewrite (trimStart_of_trimEnd _ (trimStart_clean s)).
  apply trimEnd_idempotent.
Qed.

Section Key.
Context {W : Type}.
Variable answer : forall R, Effect R -> W -> R * W.

(** X9.  [handleSaveApiKey] ignores a blank input (empty, or white space
    only, of any kind [trim] strips): nothing is stored and the modal stays
    open.  Otherwise it stores the trimmed input, raises the
    key badge, closes the modal and empties the field; the stored key is
    never empty and has no white space at either end.  No call is made in
    either case. *)
Theorem handleSaveApiKey_stores_trimmed_key :
  forall (w : W) (m : App.Model),
    let r := run answer (App.handleSaveApiKey m) w m in
    issued r = [] /\ completion r = Returned tt
    /\ (trim (App.apiKeyInput m) = "" -> final r = m)
    /\ (trim (App.apiKeyInput m) <> "" ->
        let key := trim (App.apiKeyInput m) in
        App.gemini_api_key (final r) = Some key
        /\ App.presentKey (final r) = Some key
        /\ trim key = key
        /\ App.hasApiKey (final r) = true
        /\ App.isKeyModalOpen (final r) = false
        /\ App.apiKeyInput (final r) = ""
        /\ App.code (final r) = App.code m
        /\ App.appState (final r) = App.appState m).
Proof.
  intros w m r. subst r. unfold App.handleSaveApiKey.
  destruct (falsy (trim (App.apiKeyInput m))) eqn:E.
  - cbn. split; [reflexivity|]. split; [reflexivity|]. split; [reflexivity|].
    intros H. apply falsy_false_iff in H. congruence.
  - cbn. split; [reflexivity|]. split; [reflexivity|]. split.
    + intros H. rewrite H in E. discriminate.
    + intros _. unfold App.presentKey. cbn. rewrite E.
      repeat split; try reflexivity. apply trim_idempotent.
Qed.

Lemma handleSaveApiKey_run (w : W) (m : App.Model) :
  trim (App.apiKeyInput m) <> "" ->
  run answer (App.handleSaveApiKey m) w m =
    mkRun (App.setApiKeyInput ""
             (App.setIsKeyModalOpen false
                (App.setHasApiKey true
                   (App.localStorage_setItem (trim (App.apiKeyInput m)) m))))
          w (Returned tt) [].
Proof.
  intros H. unfold App.handleSaveApiKey. apply falsy_false_iff in H.
  now rewrite H.
Qed.

(** Where [handleGenerate] first hands control back when both of its
    tests pass. *)
Lemma handleGenerate_start (m : App.Model) (apiKey : string) :
  trim (App.code m) <> "" ->
  App.presentKey m = Some apiKey ->
  fst (start (App.handleGenerate m) m) =
    App.setActiveTab doc
      (App.setChatSession None
         (App.setDocResult "" (App.setAppState GENERATING m)))
  /\ inFlight (snd (start (App.handleGenerate m) m))
     = Some (call (GeminiService.docRequest apiKey (App.code m))).
Proof.
  intros Hc Hk. unfold App.handleGenerate.
  apply falsy_false_iff in Hc. rewrite Hc, Hk.
  assert (Hne : falsy apiKey = false).
  { unfold App.presentKey in Hk. destruct (App.gemini_api_key m) as [k|]; [|discriminate].
    destruct (falsy k) eqn:E; [discriminate|]. now injection Hk as <-. }
  unfold GeminiService.generateDocFromCode. rewrite Hne. split; reflexivity.
Qed.

(** X10.  The key that is saved is the key that is sent: after
    [handleSaveApiKey] with a non-blank input and with a non-blank corpus,
    [handleGenerate] does not ask for a credential but awaits one generation
    request carrying the trimmed input as its key. *)
Theorem saved_key_reaches_request :
  forall (w : W) (m : App.Model),
    trim (App.apiKeyInput m) <> "" ->
    trim (App.code m) <> "" ->
    let saved := final (run answer (App.handleSaveApiKey m) w m) in
    let entered := start (App.handleGenerate saved) saved in
    inFlight (snd entered)
      = Some (call (GeminiService.docRequest (trim (App.apiKeyInput m)) (App.code m)))
    /\ App.appState (fst entered) = GENERATING
    /\ App.isKeyModalOpen (fst entered) = false.
Proof.
  intros w m Hk Hc saved entered. subst entered saved.
  rewrite (handleSaveApiKey_run w m Hk). cbn [final].
  set (saved := App.setApiKeyInput "" _).
  assert (Hc' : trim (App.code saved) <> "") by exact Hc.
  assert (Hk' : App.presentKey saved = Some (trim (App.apiKeyInput m))).
  { unfold App.presentKey. cbn. apply falsy_false_iff in Hk. now rewrite Hk. }
  destruct (handleGenerate_start saved _ Hc' Hk') as [E1 E2].
  rewrite E1, E2. repeat split; reflexivity.
Qed.

End Key.

(** ** The page between actions *)

Lemma length_zero_iff {A} (l : list A) : (length l =? 0)%nat = true <-> l = [].
Proof. destruct l; cbn; split; intros; congruence. Qed.

Lemma AppState_eqb_eq (a b : AppState) : AppState_eqb a b = true <-> a = b.
Proof. destruct a, b; cbn; split; intros; congruence. Qed.

Lemma presentKey_nonempty (m : App.Model) (k : string) :
  App.presentKey m = Some k -> App.gemini_api_key m = Some k /\ k <> "".
Proof.
  unfold App.presentKey. destruct (App.gemini_api_key m) as [s|]; [|discriminate].
  destruct (falsy s) eqn:E; [discriminate|]. intros [= <-].
  split; [reflexivity | now apply falsy_false_iff].
Qed.

Lemma boot_settled (stored : option string) :
  Workspace.Settled_page (Workspace.boot stored).
Proof.
  unfold Workspace.boot, Workspace.onMount.
  destruct (App.presentKey _) eqn:E; cbn;
    (constructor; cbn; try discriminate; try tauto; try (intros; split; reflexivity)).
  - intros _. unfold App.presentKey in *. cbn in *. now rewrite E.
Qed.

Section Page.
Context {W : Type}.
Variable answer : forall R, Effect R -> W -> R * W.

Ltac settle_fields :=
  constructor;
  cbn [App.code App.fileList App.docResult App.appState App.isReading
       App.isKeyModalOpen App.apiKeyInput App.hasApiKey App.activeTab
       App.chatSessionRef App.gemini_api_key App.presentKey
       App.setCode App.setFileList App.setDocResult App.setAppState
       App.setIsReading App.setIsKeyModalOpen App.setApiKeyInput
       App.setHasApiKey App.setActiveTab App.setChatSession
       App.localStorage_setItem].

(** Every action leaves the page settled. *)
Lemma handler_keeps_settled (a : Workspace.Action) (w : W) (m : App.Model) :
  Workspace.Settled_page m ->
  Workspace.Settled_page (final (run answer (Workspace.handler a m) w m)).
Proof.
  intros Hm. pose proof Hm as [I1 I2 I3 I4 I5 I6 I7 I8].
  unfold App.presentKey in I8.
  destruct a; cbn [Workspace.handler].
  - (* OpenKeyModal *) cbn. settle_fields; assumption.
  - (* CloseKeyModal *)
    destruct (App.isKeyModalOpen m); cbn; [settle_fields; assumption | exact Hm].
  - (* TypeKey *)
    destruct (App.isKeyModalOpen m); cbn; [settle_fields; assumption | exact Hm].
  - (* ClickSave *)
    destruct (App.isKeyModalOpen m); [|exact Hm].
    destruct (string_dec (trim (App.apiKeyInput m)) "") as [E | E].
    + unfold App.handleSaveApiKey. rewrite E. exact Hm.
    + rewrite (handleSaveApiKey_run answer w m E). cbn [final].
      settle_fields; try assumption.
      intros _. apply falsy_false_iff in E. rewrite E. discriminate.
  - (* SelectFiles *)
    destruct (length (App.fileList m) =? 0)%nat eqn:E; [|exact Hm].
    apply length_zero_iff in E.
    destruct files as [|f files]; [exact Hm|].
    cbn [App.handleFileChange]. rewrite processFiles_run. cbn [final].
    assert (Hidle : App.appState m = IDLE).
    { destruct (App.appState m) eqn:S; try reflexivity;
        exfalso; apply I6; [discriminate | exact E | discriminate | exact E
                            | discriminate | exact E]. }
    settle_fields; try assumption.
    + intros H. congruence.
    + unfold App.assemble. rewrite assemble_spec. cbn [fst snd].
      apply corpusText_blank.
  - (* ClickClear *)
    destruct (length (App.fileList m) =? 0)%nat; [exact Hm|].
    cbn. settle_fields; try assumption; try discriminate; try tauto.
  - (* ClickGenerate *)
    unfold App.clickGenerate.
    destruct (App.generateDisabled m) eqn:D; [exact Hm|].
    unfold App.generateDisabled in D. apply orb_false_iff in D as [D1 D2].
    assert (Hf : App.fileList m <> []).
    { intros H. apply length_zero_iff in H. congruence. }
    assert (Hc : trim (App.code m) <> "") by (intros H; now apply I7 in H).
    destruct (App.presentKey m) as [apiKey|] eqn:Hk.
    + rewrite (handleGenerate_run answer w m apiKey Hc Hk). cbv zeta.
      destruct (answer _ (GeminiService.docRequest apiKey (App.code m)) w)
        as [[response|e] w1].
      * destruct (answer _ (ChatsCreate apiKey _) w1) as [[session|e] w2];
          cbn [final]; settle_fields; try assumption; try discriminate;
          try (intros _; apply textOr_nonempty; discriminate);
          try (intros _; exact Hf).
      * cbn [final]. settle_fields; try assumption; try discriminate;
          try (intros _; exact Hf); try reflexivity.
    + unfold App.handleGenerate. apply falsy_false_iff in Hc. rewrite Hc, Hk.
      cbn. settle_fields; assumption.
  - (* ClickDocTab *) cbn. settle_fields; try assumption. discriminate.
  - (* ClickChatTab *)
    destruct (Workspace.chatTabDisabled m) eqn:D; [exact Hm|].
    unfold Workspace.chatTabDisabled in D. apply negb_false_iff in D.
    apply AppState_eqb_eq in D. cbn. settle_fields; try assumption.
    intros _. exact D.
Qed.

(** From mount on, the page is settled after every sequence of actions. *)
Lemma reachable_settled (stored : option string)
      (actions : list Workspace.Action) (w : W) :
  Workspace.Settled_page
    (fst (Workspace.perform_all answer actions w (Workspace.boot stored))).
Proof.
  generalize (boot_settled stored). generalize (Workspace.boot stored).
  revert w. induction actions as [|a actions IH]; intros w m Hm; [exact Hm|].
  cbn [Workspace.perform_all]. apply IH. now apply handler_keeps_settled.
Qed.

End Page.

Section PageFacts.
Context {W : Type}.
Variable answer : forall R, Effect R -> W -> R * W.

(** X11.  After mount and any sequence of actions, each run to its end:
    the page is not left in [GENERATING]; in [IDLE] the document slot is
    empty and there is no session; in [SUCCESS] the document slot is not
    empty; in [ERROR] there is no session, so a session exists only in
    [SUCCESS]; and outside [IDLE] there are files loaded. *)
Theorem page_state_is_consistent :
  forall (stored : option string) (actions : list Workspace.Action) (w : W),
    let m := fst (Workspace.perform_all answer actions w (Workspace.boot stored)) in
    App.appState m <> GENERATING
    /\ (App.appState m = IDLE -> App.docResult m = "" /\ App.chatSessionRef m = None)
    /\ (App.appState m = SUCCESS -> App.docResult m <> "")
    /\ (App.appState m = ERROR -> App.chatSessionRef m = None)
    /\ (App.chatSessionRef m <> None -> App.appState m = SUCCESS)
    /\ (App.appState m <> IDLE -> App.fileList m <> []).
Proof.
  intros stored actions w m.
  destruct (reachable_settled answer stored actions w) as [I1 I2 I3 I4 I5 I6 I7 I8].
  fold m in I1, I2, I3, I4, I5, I6, I7, I8.
  repeat split; auto; try (now apply I2).
  intros Hs. destruct (App.appState m) eqn:E; try reflexivity.
  - destruct (I2 eq_refl) as [_ H]. contradiction.
  - contradiction.
  - specialize (I4 eq_refl). contradiction.
Qed.

(** X12.  After mount and any sequence of actions, each run to its end,
    the chat tab is the active tab only in [SUCCESS], with a document in the
    document slot: the chat is never shown over a failed or cleared
    workspace. *)
Theorem chat_tab_only_on_success :
  forall (stored : option string) (actions : list Workspace.Action) (w : W),
    let m := fst (Workspace.perform_all answer actions w (Workspace.boot stored)) in
    App.activeTab m = chat ->
    App.appState m = SUCCESS /\ App.docResult m <> "" /\ App.fileList m <> [].
Proof.
  intros stored actions w m H.
  destruct (reachable_settled answer stored actions w) as [I1 I2 I3 I4 I5 I6 I7 I8].
  fold m in I1, I2, I3, I4, I5, I6, I7, I8.
  specialize (I5 H). split; [exact I5|]. split; [now apply I3|].
  apply I6. rewrite I5. discriminate.
Qed.

(** X13.  After mount and any sequence of actions, each run to its end:
    when the key badge is raised and the generate button is enabled, a click
    on the button starts a generation; the page enters [GENERATING] and one
    generation request is in flight, carrying the stored, non-empty key and
    a non-blank corpus. *)
Theorem enabled_button_starts_generation :
  forall (stored : option string) (actions : list Workspace.Action) (w : W),
    let m := fst (Workspace.perform_all answer actions w (Workspace.boot stored)) in
    App.hasApiKey m = true ->
    App.generateDisabled m = false ->
    exists apiKey,
      App.gemini_api_key m = Some apiKey /\ apiKey <> ""
      /\ trim (App.code m) <> ""
      /\ App.appState (fst (start (App.clickGenerate m) m)) = GENERATING
      /\ inFlight (snd (start (App.clickGenerate m) m))
         = Some (call (GeminiService.docRequest apiKey (App.code m))).
Proof.
  intros stored actions w m Hb Hd.
  destruct (reachable_settled answer stored actions w) as [I1 I2 I3 I4 I5 I6 I7 I8].
  fold m in I1, I2, I3, I4, I5, I6, I7, I8.
  specialize (I8 Hb). destruct (App.presentKey m) as [apiKey|] eqn:Hk;
    [clear I8 | now contradiction I8].
  destruct (presentKey_nonempty m apiKey Hk) as [Hs Hne].
  assert (Hc : trim (App.code m) <> "").
  { intros H. apply I7 in H. unfold App.generateDisabled in Hd.
    rewrite H in Hd. cbn in Hd. discriminate. }
  exists apiKey. split; [exact Hs|]. split; [exact Hne|]. split; [exact Hc|].
  unfold App.clickGenerate. rewrite Hd.
  destruct (handleGenerate_start m apiKey Hc Hk) as [E1 E2].
  rewrite E1, E2. split; reflexivity.
Qed.

(** X14.  [handleClear] does not cancel a generation in flight.  When the
    workspace is cleared while the generation request is awaited and the
    request is then fulfilled, the handler goes on from the cleared page:
    the document appears and the page ends in [SUCCESS] with a session,
    although corpus and manifest are empty; the session is seeded with the
    corpus the handler was started with. *)
Theorem clear_does_not_cancel_generation :
  forall (w w0 w1 w2 : W) (m : App.Model) (apiKey : string)
         (response : GenerateContentResponse) (session : Chat),
    trim (App.code m) <> "" ->
    App.gemini_api_key m = Some apiKey -> apiKey <> "" ->
    let markdown :=
      GeminiService.textOr (response_text response) "No response generated." in
    let chatCall :=
      ChatsCreate apiKey (GeminiService.seedHistory (App.code m) markdown) in
    answer _ (GeminiService.docRequest apiKey (App.code m)) w0 = (Fulfilled response, w1) ->
    answer _ chatCall w1 = (Fulfilled session, w2) ->
    let entered := start (App.handleGenerate m) m in
    let cleared := final (run answer (App.handleClear (fst entered)) w (fst entered)) in
    let r := EventLoop.settle answer (snd entered) w0 cleared in
    App.appState cleared = IDLE
    /\ App.code (final r) = "" /\ App.fileList (final r) = []
    /\ App.appState (final r) = SUCCESS
    /\ App.docResult (final r) = markdown
    /\ App.chatSessionRef (final r) = Some session
    /\ issued r = [call (GeminiService.docRequest apiKey (App.code m)); call chatCall].
Proof.
  intros w w0 w1 w2 m apiKey response session Hc Hk Hne markdown chatCall
         Hd Hs entered cleared r.
  subst r cleared entered. unfold App.handleGenerate.
  apply falsy_false_iff in Hc. rewrite Hc, (presentKey_present _ _ Hk Hne).
  unfold GeminiService.generateDocFromCode, GeminiService.createChatSession.
  apply falsy_false_iff in Hne. rewrite Hne. cbn.
  rewrite Hd. cbn.
  subst chatCall markdown. rewrite Hs. cbn. repeat split; reflexivity.
Qed.

(** A handler that is not interrupted: settling it where it first hands
    control back is running it. *)
Lemma settle_after_start {S A} (t : Task S A) (w : W) (st : S) :
  EventLoop.settle answer (snd (start t st)) w (fst (start t st))
  = run answer t w st.
Proof.
  revert st. induction t as [a | e | f k IH | R e k IH]; intros st;
    try reflexivity.
  cbn [start]. rewrite IH. reflexivity.
Qed.

End PageFacts.

(** ** The chat component *)

Lemma to_int_proper (n : Z) :
  Z.to_int n <> Decimal.Pos Decimal.Nil /\ Z.to_int n <> Decimal.Neg Decimal.Nil.
Proof.
  destruct n as [|p|p]; cbn; split; try discriminate;
    intros [= H]; now apply Unsigned.to_uint_nonnil in H.
Qed.

Lemma toString_parses (n : Z) :
  NilZero.int_of_string (toString n) = Some (Z.to_int n).
Proof.
  unfold toString. destruct (to_int_proper n) as [H1 H2].
  now apply NilZero.isi.
Qed.

Lemma toString_injective (a b : Z) : toString a = toString b -> a = b.
Proof.
  intros H. apply DecimalZ.to_int_inj.
  assert (E := toString_parses a). rewrite H, toString_parses in E.
  now injection E.
Qed.

Lemma toString_not_init (n : Z) : toString n <> "init".
Proof.
  intros H. assert (E := toString_parses n). rewrite H in E.
  vm_compute in E. discriminate.
Qed.

Section Chat.
Context {W : Type}.
Variable answer : forall R, Effect R -> W -> R * W.
Import ChatInterface.

Lemma handleSend_skips (w : W) (m : Model) :
  chatSession m = None \/ trim (input m) = "" \/ isSending m = true ->
  run answer (handleSend m) w m = mkRun m w (Returned tt) [].
Proof.
  intros H. unfold handleSend.
  destruct (chatSession m) as [session|]; [|reflexivity].
  destruct H as [H | [H | H]]; [discriminate | |].
  - now rewrite H.
  - rewrite H, orb_true_r. reflexivity.
Qed.


(** X16.  While [handleSend] awaits the answer, the user turn is already
    in the transcript, the input is empty and the sending flag is up; in
    that state the send button is disabled and [handleSend] does nothing,
    whatever is typed meanwhile: at most one message is in flight. *)
Theorem handleSend_one_in_flight :
  forall (w : W) (m : Model) (session : Chat),
    chatSession m = Some session ->
    trim (input m) <> "" ->
    isSending m = false ->
    let at_await := EventLoop.toAwait answer (handleSend m) w m in
    let waiting := fst (fst at_await) in
    inFlight (snd at_await) = Some (call (SendMessage session (input m)))
    /\ isSending waiting = true
    /\ input waiting = ""
    /\ (exists userMsg,
           messages waiting = (messages m ++ [userMsg])%list
           /\ role userMsg = user /\ text userMsg = input m)
    /\ (forall (typed : string) (w' : W),
           Transcript.sendDisabled (onChange typed waiting) = true
           /\ run answer (handleSend (onChange typed waiting)) w'
                  (onChange typed waiting)
              = mkRun (onChange typed waiting) w' (Returned tt) []).
Proof.
  intros w m session Hs Hin Hsend at_await waiting. subst waiting at_await.
  unfold handleSend. rewrite Hs, Hsend.
  apply falsy_false_iff in Hin. rewrite Hin. cbn.
  destruct (answer Z DateNow w) as [t0 w1]. cbn.
  destruct (answer Z DateNow w1) as [t1 w2]. cbn.
  split; [reflexivity|]. split; [reflexivity|]. split; [reflexivity|]. split.
  - eexists. split; [reflexivity|]. split; reflexivity.
  - intros typed w'. rewrite Hs. unfold Transcript.sendDisabled. cbn.
    rewrite !orb_true_r. split; reflexivity.
Qed.

(** X17.  In every state and whatever the environment answers,
    [handleSend] returns normally, keeps the session and only appends to the
    transcript: either nothing, or a user turn with the typed text followed
    by a model turn, after exactly one [sendMessage]. *)
Theorem handleSend_append_only :
  forall (w : W) (m : Model),
    let r := run answer (handleSend m) w m in
    completion r = Returned tt
    /\ chatSession (final r) = chatSession m
    /\ ( (final r = m /\ issued r = [])
         \/ (exists session userMsg modelMsg,
                chatSession m = Some session
                /\ messages (final r) = (messages m ++ [userMsg; modelMsg])%list
                /\ role userMsg = user /\ text userMsg = input m
                /\ role modelMsg = model
                /\ isSending (final r) = false
                /\ filter (fun c => negb (EventLoop.immediate (projT2 c))) (issued r)
                   = [call (SendMessage session (input m))]) ).
Proof.
  intros w m r. subst r.
  destruct (chatSession m) as [session|] eqn:Hs.
  2:{ rewrite (handleSend_skips w m (or_introl Hs)). cbn.
      repeat split; auto. }
  destruct (string_dec (trim (input m)) "") as [Hin | Hin].
  { rewrite (handleSend_skips w m (or_intror (or_introl Hin))). cbn.
    repeat split; auto. }
  destruct (isSending m) eqn:Hsend.
  { rewrite (handleSend_skips w m (or_intror (or_intror Hsend))). cbn.
    repeat split; auto. }
  destruct (answer Z DateNow w) as [t0 w1] eqn:H0.
  destruct (answer Z DateNow w1) as [t1 w2] eqn:H1.
  destruct (answer _ (SendMessage session (input m)) w2) as [res w3] eqn:Hr.
  destruct (answer Z DateNow w3) as [t2 w4] eqn:H2.
  destruct (answer Z DateNow w4) as [t3 w5] eqn:H3.
  rewrite (handleSend_exchange answer w w1 w2 w3 w4 w5 m session t0 t1 t2 t3 res
             Hs Hin Hsend H0 H1 Hr H2 H3).
  cbn. split; [reflexivity|]. split; [reflexivity|]. right.
  exists session. eexists. eexists. repeat split; reflexivity.
Qed.

(** X18.  The greeting is put into an empty transcript once a session is
    there, and only then: with no session or with a transcript that is not
    empty [greet] does nothing, so that greeting twice is greeting once.  The
    id of the greeting is not the decimal of any number, so it differs from
    the id of every other turn. *)
Theorem greet_only_once :
  forall (w : W) (m : Model),
    let r := run answer (greet m) w m in
    (chatSession m = None \/ messages m <> [] -> final r = m /\ issued r = [])
    /\ (chatSession m <> None -> messages m = [] ->
        exists now,
          messages (final r) = [mkMessage "init" model greeting now]
          /\ forall w', final (run answer (greet (final r)) w' (final r)) = final r)
    /\ (forall n : Z, toString n <> "init").
Proof.
  intros w m r. subst r. unfold greet. split; [|split].
  - intros [H | H].
    + rewrite H. split; reflexivity.
    + destruct (chatSession m); [|split; reflexivity].
      destruct (messages m); [now contradiction H | split; reflexivity].
  - intros Hs Hm. rewrite Hm. destruct (chatSession m) as [session|] eqn:E;
      [|now contradiction Hs].
    cbn. destruct (answer Z DateNow w) as [now w1]. cbn.
    exists now. split; [reflexivity|]. intros w'. rewrite E. reflexivity.
  - exact toString_not_init.
Qed.

Lemma NoDup_snoc {A} (l : list A) (x : A) :
  NoDup l -> ~ In x l -> NoDup (l ++ [x])%list.
Proof.
  induction l as [|y l IH]; intros Hl Hx; cbn.
  - constructor; [intros [] | constructor].
  - inversion Hl as [|? ? Hy Hl']; subst. constructor.
    + intros H. apply in_app_or in H as [H | [H | []]]; [contradiction|].
      subst. apply Hx. left; reflexivity.
    + apply IH; [exact Hl'|]. intros H. apply Hx. right; exact H.
Qed.

Lemma stamped_id_differs (bound n : Z) (l : list ChatMessage) :
  Forall (fun msg => id msg = "init"
                     \/ exists k, (k < bound)%Z /\ id msg = toString k) l ->
  (bound <= n)%Z -> ~ In (toString n) (map id l).
Proof.
  intros Hl Hn H. apply in_map_iff in H as (msg & E & Hin).
  rewrite Forall_forall in Hl. destruct (Hl msg Hin) as [Hi | (k & Hk & Hi)].
  - rewrite Hi in E. symmetry in E. now apply toString_not_init in E.
  - rewrite Hi in E. apply toString_injective in E. lia.
Qed.

(** X19.  Ids stay distinct when the clock keeps its distance.  If the
    ids of the transcript are distinct and each is the greeting's or the
    decimal of a number below [bound], and a message is sent at a reading not
    below [bound] and answered at a reading not below that one, then the ids
    of the longer transcript are again distinct, each the greeting's or the
    decimal of a number below the answer's reading plus two. *)
Theorem handleSend_fresh_ids :
  forall (w w1 w2 w3 w4 w5 : W) (m : Model) (session : Chat)
         (bound t0 t1 t2 t3 : Z) (r : Settled GenerateContentResponse),
    chatSession m = Some session ->
    trim (input m) <> "" ->
    isSending m = false ->
    answer _ DateNow w = (t0, w1) ->
    answer _ DateNow w1 = (t1, w2) ->
    answer _ (SendMessage session (input m)) w2 = (r, w3) ->
    answer _ DateNow w3 = (t2, w4) ->
    answer _ DateNow w4 = (t3, w5) ->
    Transcript.stampedBelow bound (messages m) ->
    (bound <= t0)%Z -> (t0 <= t2)%Z ->
    Transcript.stampedBelow (t2 + 2) (messages (final (run answer (handleSend m) w m))).
Proof.
  intros w w1 w2 w3 w4 w5 m session bound t0 t1 t2 t3 r
         Hs Hin Hsend H0 H1 Hr H2 H3 [Hnd Hst] Hb Ht.
  rewrite (handleSend_exchange answer w w1 w2 w3 w4 w5 m session t0 t1 t2 t3 r
             Hs Hin Hsend H0 H1 Hr H2 H3).
  cbn [final messages]. unfold Transcript.stampedBelow. split.
  - change [mkMessage (toString t0) user (input m) t1;
            mkMessage (toString (t2 + 1)) model (modelText r) t3]
      with ([mkMessage (toString t0) user (input m) t1]
            ++ [mkMessage (toString (t2 + 1)) model (modelText r) t3])%list.
    rewrite app_assoc, !map_app. cbn [map id].
    apply NoDup_snoc; [apply NoDup_snoc; [exact Hnd|] |].
    + apply (stamped_id_differs bound t0 _ Hst Hb).
    + intros H. apply in_app_or in H as [H | [H | []]].
      * revert H. apply (stamped_id_differs bound (t2 + 1) _ Hst). lia.
      * apply toString_injective in H. lia.
  - apply Forall_app. split.
    + eapply Forall_impl; [|exact Hst]. cbn beta.
      intros msg [Hi | (k & Hk & Hi)]; [left; exact Hi | right].
      exists k. split; [lia | exact Hi].
    + apply Forall_cons; [|apply Forall_cons; [|apply Forall_nil]]; right; cbn [id].
      * exists t0. split; [lia | reflexivity].
      * exists (t2 + 1)%Z. split; [lia | reflexivity].
Qed.

End Chat.

(** ** More on the two services and the filter *)

Section Rest.
Context {W : Type}.
Variable answer : forall R, Effect R -> W -> R * W.

(** X20.  [handleClear] empties corpus, manifest and document slot,
    drops the session and returns to [IDLE] on the document tab, all at
    once and without any call; the stored key and its badge stay.  On the
    cleared page the generate button and the chat tab are disabled and a
    click on the generate button does nothing. *)
Theorem handleClear_resets_workspace :
  forall (w : W) (m : App.Model),
    let r := run answer (App.handleClear m) w m in
    App.code (final r) = "" /\ App.fileList (final r) = []
    /\ App.docResult (final r) = "" /\ App.chatSessionRef (final r) = None
    /\ App.appState (final r) = IDLE /\ App.activeTab (final r) = doc
    /\ App.gemini_api_key (final r) = App.gemini_api_key m
    /\ App.hasApiKey (final r) = App.hasApiKey m
    /\ issued r = []
    /\ App.generateDisabled (final r) = true
    /\ Workspace.chatTabDisabled (final r) = true
    /\ run answer (App.clickGenerate (final r)) w (final r)
       = mkRun (final r) w (Returned tt) []
    /\ run answer (App.handleGenerate (final r)) w (final r)
       = mkRun (final r) w (Returned tt) [].
Proof. intros w m r. subst r. cbn. repeat split; reflexivity. Qed.

(** X21.  [createChatSession] with an empty key throws its error before
    anything is asked of the service.  With a key it makes exactly one call,
    whose history has two turns, the user's then the model's; the user's
    turn holds the corpus and the document among its parts, in this order;
    the chat created is returned and a failure is rethrown as it is. *)
Theorem createChatSession_request :
  forall (S : Type) (w : W) (st : S) (apiKey fileContext generatedDoc : string),
    let r := run answer
                 (GeminiService.createChatSession apiKey fileContext generatedDoc)
                 w st in
    let history := GeminiService.seedHistory fileContext generatedDoc in
    final r = st
    /\ (apiKey = "" ->
        completion r
        = Uncaught (ErrorObject "API Key is required to create chat session.")
        /\ issued r = [])
    /\ (apiKey <> "" ->
        issued r = [call (ChatsCreate apiKey history)]
        /\ completion r =
             match fst (answer _ (ChatsCreate apiKey history) w) with
             | Fulfilled session => Returned session
             | Rejected e => Uncaught e
             end)
    /\ map content_role history = [user; model]
    /\ (exists lead between close,
           map content_parts history
           = [[lead; fileContext; between; generatedDoc; close]; [
              "明白。我已经阅读了源代码和技术文档。请问您有什么关于项目架构、逻辑或代码细节的问题？"]]).
Proof.
  intros S w st apiKey fileContext generatedDoc r history. subst r history.
  unfold GeminiService.createChatSession.
  destruct (falsy apiKey) eqn:E.
  - cbn. split; [reflexivity|]. split; [intros _; split; reflexivity|].
    split; [intros H; apply falsy_false_iff in H; congruence|].
    split; [reflexivity|]. do 3 eexists. reflexivity.
  - cbn. destruct (answer _ (ChatsCreate apiKey _) w) as [[session|e] w1] eqn:Ha;
      cbn; (split; [reflexivity|]);
      (split; [intros H; rewrite H in E; discriminate|]);
      (split; [intros _; split; reflexivity|]);
      (split; [reflexivity|]); do 3 eexists; reflexivity.
Qed.

End Rest.

Lemma endsWith_transitive (s t e : string) :
  endsWith s t = true -> endsWith t e = true -> endsWith s e = true.
Proof.
  induction s as [|c s IH]; intros H1 H2.
  - destruct t; [exact H2 | discriminate].
  - rewrite endsWith_cons in H1. apply orb_true_iff in H1 as [H1 | H1].
    + apply String.eqb_eq in H1. now subst.
    + rewrite endsWith_cons, (IH H1 H2). apply orb_true_r.
Qed.

Lemma single_segment (p x : string) : segments p = [x] -> p = x.
Proof.
  revert x; induction p as [|c p IH]; intros x H.
  - now injection H.
  - cbn [segments] in H. destruct (Ascii.eqb c "/").
    + injection H as _ H. now apply segments_nonempty in H.
    + destruct (segments_cons p) as (y & r & E). rewrite E in H.
      cbn [extendFirst] in H. injection H as <- ->. now rewrite (IH y E).
Qed.

(** The last segment of a path is its end. *)
Lemma last_segment_is_ending (p : string) :
  endsWith p (last (segments p) "") = true.
Proof.
  induction p as [|c p IH]; [reflexivity|].
  cbn [segments]. destruct (segments_cons p) as (y & r & E).
  destruct (Ascii.eqb c "/").
  - rewrite E in *. cbn [last] in *. rewrite endsWith_cons, IH. apply orb_true_r.
  - rewrite E in *. cbn [extendFirst]. destruct r as [|z r].
    + cbn [last]. rewrite (single_segment p y E). apply endsWith_refl.
    + cbn [last] in *. rewrite endsWith_cons, IH. apply orb_true_r.
Qed.

(** X22.  For extensions without [/], the extension check of a path is
    the extension check of its last segment: it looks at the file name and
    at no directory, where the directory check looks at the directories and
    not at the file name. *)
Theorem extension_check_reads_file_name :
  forall (allowed : list string) (p : string),
    (forall e, In e allowed -> hasChar "/" e = false) ->
    Assembler.isAllowed allowed p
    = Assembler.isAllowed allowed (last (segments p) "").
Proof.
  intros allowed p He. unfold Assembler.isAllowed.
  apply eq_true_iff_eq. rewrite !existsb_exists.
  split; intros (e & Hin & H); exists e; (split; [exact Hin|]).
  - apply (endsWith_last_segment e _ (He e Hin)) in H.
    now rewrite segments_toLowerCase, last_map_lower in H.
  - apply (endsWith_transitive _ (toLowerCase (last (segments p) ""))); [|exact H].
    rewrite <- last_map_lower, <- segments_toLowerCase.
    apply last_segment_is_ending.
Qed.

(** ** The properties above at concrete inputs *)

Lemma handleGenerate_blank_corpus_witness :
  trim (App.code Examples.keyless) <> ""
  /\ trim (App.code (App.setCode "  " Examples.keyless)) = ""
  /\ run Script.answer (App.handleGenerate (App.setCode "  " Examples.keyless))
         Examples.quiet (App.setCode "  " Examples.keyless)
     = mkRun (App.setCode "  " Examples.keyless) Examples.quiet (Returned tt) [].
Proof.
  assert (H : trim (App.code (App.setCode "  " Examples.keyless)) = "") by reflexivity.
  split; [vm_compute; discriminate|]. split; [exact H|].
  exact (proj1 (handleGenerate_blank_corpus Script.answer Examples.quiet
                  (App.setCode "  " Examples.keyless) H)).
Defined.

Lemma generateDocFromCode_single_request_witness :
  run Script.answer (GeminiService.generateDocFromCode "key" "corpus")
      (Script.mkWorld [] [Fulfilled (mkResponse None)] [] []) tt
  = mkRun tt Examples.quiet (Returned "No response generated.")
          [call (GeminiService.docRequest "key" "corpus")].
Proof.
  assert (H : "key" <> "") by discriminate.
  exact (proj1 (generateDocFromCode_single_request Script.answer unit
                  (Script.mkWorld [] [Fulfilled (mkResponse None)] [] [])
                  Examples.quiet tt "key" "corpus" (Fulfilled (mkResponse None))
                  H eq_refl)).
Defined.

Lemma handleGenerate_success_witness :
  let m := Examples.loaded in
  let r := run Script.answer (App.handleGenerate m) Samples.bothSucceed m in
  App.appState (final r) = SUCCESS
  /\ App.docResult (final r) = "# Doc"
  /\ App.chatSessionRef (final r) = Some (mkChat 7).
Proof.
  assert (H1 : trim (App.code Examples.loaded) <> "") by (vm_compute; discriminate).
  assert (H2 : "key" <> "") by discriminate.
  destruct (handleGenerate_success Script.answer Samples.bothSucceed
              (Script.mkWorld [] [] [Fulfilled (mkChat 7)] []) Examples.quiet
              Examples.loaded "key" (mkResponse (Some "# Doc")) (mkChat 7)
              H1 eq_refl H2 eq_refl eq_refl)
    as (Hs & Hd & Hc & _).
  split; [exact Hs | split; [exact Hd | exact Hc]].
Defined.

Lemma handleSaveApiKey_stores_trimmed_key_witness :
  let m := Samples.typingKey in
  let r := run Script.answer (App.handleSaveApiKey m) Examples.quiet m in
  App.apiKeyInput m = utf8 [194; 160] ++ " secret" ++ utf8 [227; 128; 128]
  /\ App.gemini_api_key (final r) = Some "secret"
  /\ App.isKeyModalOpen (final r) = false
  /\ final (run Script.answer
                (App.handleSaveApiKey (App.setApiKeyInput (utf8 [227; 128; 128]) m))
                Examples.quiet (App.setApiKeyInput (utf8 [227; 128; 128]) m))
     = App.setApiKeyInput (utf8 [227; 128; 128]) m.
Proof.
  assert (H1 : trim (App.apiKeyInput Samples.typingKey) <> "")
    by (vm_compute; discriminate).
  assert (H2 : trim (App.apiKeyInput
                       (App.setApiKeyInput (utf8 [227; 128; 128]) Samples.typingKey))
               = "") by (vm_compute; reflexivity).
  destruct (handleSaveApiKey_stores_trimmed_key Script.answer Examples.quiet
              Samples.typingKey) as (_ & _ & _ & Hs).
  destruct (Hs H1) as (Hk & _ & _ & _ & Hm & _).
  destruct (handleSaveApiKey_stores_trimmed_key Script.answer Examples.quiet
              (App.setApiKeyInput (utf8 [227; 128; 128]) Samples.typingKey))
    as (_ & _ & Hb & _).
  split; [reflexivity|]. split; [exact Hk|]. split; [exact Hm | exact (Hb H2)].
Defined.

Lemma saved_key_reaches_request_witness :
  let m := Samples.typingKey in
  let saved := final (run Script.answer (App.handleSaveApiKey m) Examples.quiet m) in
  App.gemini_api_key m = None
  /\ inFlight (snd (start (App.handleGenerate saved) saved))
     = Some (call (GeminiService.docRequest "secret" (App.code m))).
Proof.
  assert (H1 : trim (App.apiKeyInput Samples.typingKey) <> "")
    by (vm_compute; discriminate).
  assert (H2 : trim (App.code Samples.typingKey) <> "") by (vm_compute; discriminate).
  split; [reflexivity|].
  exact (proj1 (saved_key_reaches_request Script.answer Examples.quiet
                  Samples.typingKey H1 H2)).
Defined.

Lemma chat_tab_only_on_success_witness :
  let m := fst (Workspace.perform_all Script.answer Samples.toTheChat
                  Samples.bothSucceed (Workspace.boot (Some "key"))) in
  App.activeTab m = chat
  /\ App.appState m = SUCCESS /\ App.docResult m <> "" /\ App.fileList m <> [].
Proof.
  assert (H : App.activeTab
                (fst (Workspace.perform_all Script.answer Samples.toTheChat
                        Samples.bothSucceed (Workspace.boot (Some "key")))) = chat)
    by (vm_compute; reflexivity).
  split; [exact H|].
  exact (chat_tab_only_on_success Script.answer (Some "key") Samples.toTheChat
           Samples.bothSucceed H).
Defined.

Lemma enabled_button_starts_generation_witness :
  let m := fst (Workspace.perform_all Script.answer Samples.justLoaded
                  Examples.quiet (Workspace.boot (Some "key"))) in
  App.hasApiKey m = true /\ App.generateDisabled m = false
  /\ exists apiKey,
      App.gemini_api_key m = Some apiKey /\ apiKey <> ""
      /\ trim (App.code m) <> ""
      /\ App.appState (fst (start (App.clickGenerate m) m)) = GENERATING
      /\ inFlight (snd (start (App.clickGenerate m) m))
         = Some (call (GeminiService.docRequest apiKey (App.code m))).
Proof.
  assert (H1 : App.hasApiKey
                 (fst (Workspace.perform_all Script.answer Samples.justLoaded
                         Examples.quiet (Workspace.boot (Some "key")))) = true)
    by (vm_compute; reflexivity).
  assert (H2 : App.generateDisabled
                 (fst (Workspace.perform_all Script.answer Samples.justLoaded
                         Examples.quiet (Workspace.boot (Some "key")))) = false)
    by (vm_compute; reflexivity).
  split; [exact H1|]. split; [exact H2|].
  exact (enabled_button_starts_generation Script.answer (Some "key")
           Samples.justLoaded Examples.quiet H1 H2).
Defined.

Lemma clear_does_not_cancel_generation_witness :
  let m := Examples.loaded in
  let entered := start (App.handleGenerate m) m in
  let cleared :=
    final (run Script.answer (App.handleClear (fst entered)) Samples.bothSucceed
               (fst entered)) in
  let r := EventLoop.settle Script.answer (snd entered) Samples.bothSucceed cleared in
  App.appState cleared = IDLE
  /\ App.code (final r) = "" /\ App.fileList (final r) = []
  /\ App.appState (final r) = SUCCESS
  /\ App.docResult (final r) = "# Doc"
  /\ App.chatSessionRef (final r) = Some (mkChat 7).
Proof.
  assert (H1 : trim (App.code Examples.loaded) <> "") by (vm_compute; discriminate).
  assert (H2 : "key" <> "") by discriminate.
  destruct (clear_does_not_cancel_generation Script.answer Samples.bothSucceed
              Samples.bothSucceed
              (Script.mkWorld [] [] [Fulfilled (mkChat 7)] []) Examples.quiet
              Examples.loaded "key" (mkResponse (Some "# Doc")) (mkChat 7)
              H1 eq_refl H2 eq_refl eq_refl)
    as (Hi & Hc & Hf & Hs & Hd & Hr & _).
  repeat split; assumption.
Defined.


Lemma handleSend_one_in_flight_witness :
  let m := Examples.openChat in
  let at_await :=
    EventLoop.toAwait Script.answer (ChatInterface.handleSend m)
                      Examples.failThenReply m in
  inFlight (snd at_await) = Some (call (SendMessage (mkChat 0) "why?"))
  /\ ChatInterface.isSending (fst (fst at_await)) = true.
Proof.
  assert (H : trim (ChatInterface.input Examples.openChat) <> "")
    by (vm_compute; discriminate).
  destruct (handleSend_one_in_flight Script.answer Examples.failThenReply
              Examples.openChat (mkChat 0) eq_refl H eq_refl)
    as (H1 & H2 & _).
  split; [exact H1 | exact H2].
Defined.

Lemma handleSend_fresh_ids_witness :
  Transcript.stampedBelow 32 (ChatInterface.messages Examples.openChat)
  /\ Transcript.stampedBelow 152
       (ChatInterface.messages
          (final (run Script.answer (ChatInterface.handleSend Examples.openChat)
                      Examples.failThenReply Examples.openChat))).
Proof.
  assert (H0 : trim (ChatInterface.input Examples.openChat) <> "")
    by (vm_compute; discriminate).
  assert (H : Transcript.stampedBelow 32 (ChatInterface.messages Examples.openChat)).
  { split.
    - cbn. repeat (constructor; [cbn; intuition discriminate|]). constructor.
    - cbn. apply Forall_cons; [left; reflexivity|].
      apply Forall_cons; [right; exists 20%Z; split; [lia | reflexivity]|].
      apply Forall_cons; [right; exists 31%Z; split; [lia | reflexivity]|].
      apply Forall_nil. }
  split; [exact H|].
  exact (handleSend_fresh_ids Script.answer
           Examples.failThenReply
           (Script.mkWorld [100; 150; 150; 200; 200; 250; 250]%Z [] []
              [Rejected (ErrorObject "network");
               Fulfilled (mkResponse (Some "because"))])
           (Script.mkWorld [150; 150; 200; 200; 250; 250]%Z [] []
              [Rejected (ErrorObject "network");
               Fulfilled (mkResponse (Some "because"))])
           (Script.mkWorld [150; 150; 200; 200; 250; 250]%Z [] []
              [Fulfilled (mkResponse (Some "because"))])
           (Script.mkWorld [150; 200; 200; 250; 250]%Z [] []
              [Fulfilled (mkResponse (Some "because"))])
           (Script.mkWorld [200; 200; 250; 250]%Z [] []
              [Fulfilled (mkResponse (Some "because"))])
           Examples.openChat (mkChat 0) 32%Z 100%Z 100%Z 150%Z 150%Z
           (Rejected (ErrorObject "network"))
           eq_refl H0 eq_refl eq_refl eq_refl eq_refl eq_refl eq_refl
           H ltac:(lia) ltac:(lia)).
Defined.

Lemma extension_check_reads_file_name_witness :
  (forall e, In e App.ALLOWED_EXTENSIONS -> hasChar "/" e = false)
  /\ Assembler.isAllowed App.ALLOWED_EXTENSIONS "a.ts/notes"
     = Assembler.isAllowed App.ALLOWED_EXTENSIONS "notes".
Proof.
  assert (H : forall e, In e App.ALLOWED_EXTENSIONS -> hasChar "/" e = false).
  { intros e He. cbn in He.
    repeat (destruct He as [<- | He]; [reflexivity|]). contradiction. }
  split; [exact H|].
  exact (extension_check_reads_file_name App.ALLOWED_EXTENSIONS "a.ts/notes" H).
Defined.
